(** * Ghana E-VAT receipt lottery: the scan pipeline, embedded and verified

    A shallow embedding of the JavaScript prototype:
    - [QRParser]  (scanner.js): receipt-code parsing for the two QR grammars;
    - [CONFIG]    (config.js):  win percentage, prize table, rate limit, pattern;
    - [API]       (api.js):     the demo-mode redemption transaction, the draw,
                                the transaction hash, the leaderboard.

    JavaScript strings are modelled by [string]; [charCodeAt] is the character
    code.  Numbers that the code keeps integral are in [Z] or [nat]; the values
    of [Math.random() * 100] are rationals.  [localStorage] is a record of the
    JSON arrays the code keeps under its keys, passed explicitly. *)

From Stdlib Require Import ZArith QArith Lia List String Ascii Bool Arith.
From Stdlib Require Import Permutation DecimalString DecimalZ Qround Sorted.
Import ListNotations.

Local Open Scope string_scope.
Local Open Scope Z_scope.

(** ** Strings as JavaScript uses them *)

Module Str.

Definition charCode (c : ascii) : Z := Z.of_nat (nat_of_ascii c).

(** [s.substring(a, b)] for [a <= b]. *)
Definition substring (a b : nat) (s : string) : string :=
  String.substring a (b - a) s.

(** [s.substring(a)]. *)
Definition substring_from (a : nat) (s : string) : string :=
  String.substring a (String.length s - a) s.

Fixpoint repeat (s : string) (n : nat) : string :=
  match n with
  | O => ""
  | S n' => s ++ repeat s n'
  end.

Fixpoint startsWith (p s : string) : bool :=
  match p, s with
  | EmptyString, _ => true
  | String a p', String b s' => Ascii.eqb a b && startsWith p' s'
  | String _ _, EmptyString => false
  end.

(** [s.includes(p)] *)
Fixpoint includes (p s : string) : bool :=
  startsWith p s ||
  match s with
  | EmptyString => false
  | String _ s' => includes p s'
  end.

Definition chars (s : string) : list ascii := list_ascii_of_string s.

End Str.

(** ** Regular expressions

    The fragment of the RegExp syntax that the two receipt patterns use.
    Both patterns start with [^], so [test] only tries a match at index 0;
    [Eos] is the [$] assertion (no [m] flag: end of input only). *)

Module RegExp.

Inductive re : Type :=
| Lit (s : string)
| Class (p : ascii -> bool)
| Cat (r1 r2 : re)
| Or (r1 r2 : re)
| Opt (r : re)
| Times (n : nat) (r : re)
| Eos.

Record t : Type := { source : re; ignoreCase : bool }.

Definition is_digit (c : ascii) : bool :=
  let n := nat_of_ascii c in (48 <=? n)%nat && (n <=? 57)%nat.

Definition is_upper (c : ascii) : bool :=
  let n := nat_of_ascii c in (65 <=? n)%nat && (n <=? 90)%nat.

Definition is_lower (c : ascii) : bool :=
  let n := nat_of_ascii c in (97 <=? n)%nat && (n <=? 122)%nat.

(** [\d] and [[A-Z0-9]] *)
Definition digit : re := Class is_digit.
Definition upper_or_digit : re := Class (fun c => is_upper c || is_digit c).

(** Canonicalize of the [i] flag: ASCII letters compare by their upper case. *)
Definition canon (ic : bool) (c : ascii) : ascii :=
  if ic && is_lower c then ascii_of_nat (nat_of_ascii c - 32) else c.

Fixpoint lit (ic : bool) (p s : string) : list string :=
  match p, s with
  | EmptyString, _ => [s]
  | String a p', String b s' =>
      if Ascii.eqb (canon ic a) (canon ic b) then lit ic p' s' else []
  | String _ _, EmptyString => []
  end.

(** The inputs left over after each way [r] can match a prefix of [s],
    in backtracking order. *)
Fixpoint residues (ic : bool) (r : re) (s : string) : list string :=
  match r with
  | Lit p => lit ic p s
  | Class p =>
      match s with
      | String c s' =>
          if p c || (ic && (p (canon ic c))) then [s'] else []
      | EmptyString => []
      end
  | Cat r1 r2 => flat_map (residues ic r2) (residues ic r1 s)
  | Or r1 r2 => residues ic r1 s ++ residues ic r2 s
  | Opt r1 => residues ic r1 s ++ [s]
  | Times n r1 => Nat.iter n (flat_map (residues ic r1)) [s]
  | Eos => match s with EmptyString => [s] | _ => [] end
  end.

(** A sequence of pieces, left to right. *)
Definition seq (rs : list re) : re := fold_right Cat (Lit "") rs.

Definition test (p : t) (s : string) : bool :=
  match residues (ignoreCase p) (source p) s with
  | [] => false
  | _ :: _ => true
  end.

End RegExp.

(** ** scanner.js: QRParser *)

(** The host's [URL] constructor.  [new URL(s)] either yields a URL, of which
    the parser reads [searchParams] only, or throws ([None]); an engine
    without the constructor throws on every input. *)
Record URL : Type := { searchParams : list (string * string) }.

Class Host : Type := { new_URL : string -> option URL }.

(** [params.get(name)]: the first value under [name], or null. *)
Fixpoint URLSearchParams_get (params : list (string * string)) (name : string)
  : option string :=
  match params with
  | [] => None
  | (k, v) :: rest =>
      if String.eqb k name then Some v else URLSearchParams_get rest name
  end.

(** What a call evaluates to: a value, or a thrown TypeError. *)
Inductive completion (A : Type) : Type :=
| Normal (a : A)
| TypeError.
Arguments Normal {A} a.
Arguments TypeError {A}.

Module QRParser.

Inductive Version : Type := v1 | v2 | unknown.

Record V2Data : Type := {
  sdcId : option string;
  rcptNum : option string;
  internalData : option string;
  ts : option string;
  sig : option string;
  timestampFormatted : string
}.

(** The [data] object: the fields of a v2 URL, or [{ code }] for v1. *)
Inductive Data : Type :=
| DataV2 (d : V2Data)
| DataV1 (code : string).

Record ParsedReceipt : Type := {
  version : Version;
  valid : bool;
  data : option Data;          (* None is null *)
  raw : string;
  error : option string
}.

Import RegExp.

(** [/^https?:\/\/(evat\.gra\.gov\.gh|vsdc\.vat-gh\.com)\/verify\?/i] *)
Definition urlPattern : RegExp.t :=
  {| source := seq [Lit "http"; Opt (Lit "s"); Lit "://";
                    Or (Lit "evat.gra.gov.gh") (Lit "vsdc.vat-gh.com");
                    Lit "/verify?"];
     ignoreCase := true |}.

(** [/^GRA-VAT-\d{4}-[A-Z0-9]{4}-[A-Z0-9]{4}-[A-Z0-9]{4}$/] *)
Definition v1Pattern : RegExp.t :=
  {| source := seq [Lit "GRA-VAT-"; Times 4 digit; Lit "-";
                    Times 4 upper_or_digit; Lit "-";
                    Times 4 upper_or_digit; Lit "-";
                    Times 4 upper_or_digit; Eos];
     ignoreCase := false |}.

Definition isV2Format (content : string) : bool := test urlPattern content.

Definition isV1Format (content : string) : bool := test v1Pattern content.

Definition formatTimestamp (ts : option string) : string :=
  match ts with
  | None => "Unknown"
  | Some ts =>
      if (String.length ts =? 0)%nat || (String.length ts <? 14)%nat
      then "Unknown"
      else
        let year := Str.substring 0 4 ts in
        let month := Str.substring 4 6 ts in
        let day := Str.substring 6 8 ts in
        let hour := Str.substring 8 10 ts in
        let min := Str.substring 10 12 ts in
        let sec := Str.substring 12 14 ts in
        year ++ "/" ++ month ++ "/" ++ day ++ " " ++
        hour ++ ":" ++ min ++ ":" ++ sec
  end.

Section Parser.
Context `{Host}.

(** The [try] block; the [catch] returns null. *)
Definition parseV2URL (urlString : string) : option V2Data :=
  match new_URL urlString with
  | Some url =>
      let params := searchParams url in
      Some {| sdcId := URLSearchParams_get params "sdc";
              rcptNum := URLSearchParams_get params "rcpt";
              internalData := URLSearchParams_get params "data";
              ts := URLSearchParams_get params "ts";
              sig := URLSearchParams_get params "sig";
              timestampFormatted :=
                formatTimestamp (URLSearchParams_get params "ts") |}
  | None => None
  end.

Definition parse (qrContent : string) : ParsedReceipt :=
  if isV2Format qrContent then
    {| version := v2;
       valid := true;
       data := option_map DataV2 (parseV2URL qrContent);
       raw := qrContent;
       error := None |}
  else if isV1Format qrContent then
    {| version := v1;
       valid := true;
       data := Some (DataV1 qrContent);
       raw := qrContent;
       error := None |}
  else
    {| version := unknown;
       valid := false;
       data := None;
       raw := qrContent;
       error := Some "Unrecognized QR code format" |}.

End Parser.

(** [parsedData.data.rcptNum] and [parsedData.data.code]: reading a field
    of null throws, a field the object lacks reads as undefined ([None],
    like the final [return null]). *)
Definition getUniqueId (parsedData : ParsedReceipt) : completion (option string) :=
  match version parsedData with
  | v2 =>
      match data parsedData with
      | None => TypeError
      | Some (DataV2 d) => Normal (rcptNum d)
      | Some (DataV1 _) => Normal None
      end
  | v1 =>
      match data parsedData with
      | None => TypeError
      | Some (DataV1 code) => Normal (Some code)
      | Some (DataV2 _) => Normal None
      end
  | unknown => Normal None
  end.

End QRParser.

(** ** config.js *)

Record Config : Type := {
  N8N_WEBHOOK_URL : string;
  DEMO_MODE : bool;
  WIN_PERCENTAGE : Z;
  PRIZES : list (string * Z);     (* in the order [Object.entries] lists them *)
  MAX_SCANS_PER_HOUR : Z;
  QR_PATTERN : RegExp.t
}.

Definition CONFIG : Config := {|
  N8N_WEBHOOK_URL := "https://zonecrest.app.n8n.cloud/webhook/scan";
  DEMO_MODE := true;
  WIN_PERCENTAGE := 10;
  PRIZES := [("GH₵5 Airtime", 70); ("GH₵10 Airtime", 25); ("GH₵50 Airtime", 5)];
  MAX_SCANS_PER_HOUR := 10;
  QR_PATTERN := QRParser.v1Pattern
|}.

Definition isN8nConfigured (cfg : Config) : bool :=
  negb (Str.includes "YOUR-N8N-INSTANCE" (N8N_WEBHOOK_URL cfg)).

(** ** Numbers *)

(** [x < y] on the rationals, as a boolean. *)
Definition Qltb (x y : Q) : bool := negb (Qle_bool y x).

(** ToInt32: the operand conversion of [<<] and [&]. *)
Definition ToInt32 (z : Z) : Z :=
  let m := z mod 2 ^ 32 in
  if 2 ^ 31 <=? m then m - 2 ^ 32 else m.

(** Template-literal rendering of an integer. *)
Definition Z_toString (z : Z) : string := NilZero.string_of_int (Z.to_int z).

Definition hex_digit (d : Z) : ascii :=
  if d <? 10 then ascii_of_nat (48 + Z.to_nat d)
  else ascii_of_nat (87 + Z.to_nat d).

Fixpoint hex_digits (fuel : nat) (n : Z) (acc : string) : string :=
  match fuel with
  | O => acc
  | S fuel' =>
      let acc' := String (hex_digit (n mod 16)) acc in
      if n / 16 =? 0 then acc' else hex_digits fuel' (n / 16) acc'
  end.

(** [n.toString(16)] for an integer [n >= 0]. *)
Definition toString16 (n : Z) : string :=
  hex_digits (S (Z.to_nat (Z.log2 n))) n "".

(** ** api.js: data *)

Inductive Outcome : Type := WIN | LOSE.

Definition Outcome_eqb (a b : Outcome) : bool :=
  match a, b with
  | WIN, WIN | LOSE, LOSE => true
  | _, _ => false
  end.

(** A reading of the clock: the text [toISOString()] gives, and the instant
    (milliseconds since the epoch) that [new Date(text)] reads back. *)
Record Timestamp : Type := { iso : string; time : Z }.

(** The argument of [_storeScan]. *)
Module Scan.
Record t : Type := {
  qrCode : string;
  phone : string;
  timestamp : Timestamp;
  result : Outcome;
  prize : option string;
  transactionHash : string;
  randomSeed : string
}.
End Scan.

(** An element of the array under [SCAN_HISTORY]. *)
Module Entry.
Record t : Type := {
  qrCode : string;
  phone : string;
  timestamp : Timestamp;
  result : Outcome;
  prize : option string
}.
End Entry.

(** An element of the array under [AUDIT_LOG]. *)
Module Audit.
Record t : Type := {
  timestamp : Timestamp;
  phone : string;
  qrCode : string;
  prize : option string;
  transactionHash : string;
  randomSeed : string
}.
End Audit.

(** An element of the array under [LEADERBOARD]. *)
Module User.
Record t : Type := { phone : string; scans : Z; wins : Z }.
End User.

(** [localStorage], by key; a missing key reads as the empty array. *)
Record Storage : Type := {
  SCAN_HISTORY : list Entry.t;
  scanned_codes : list string;
  AUDIT_LOG : list Audit.t;
  LEADERBOARD : list User.t
}.

Definition empty_storage : Storage :=
  {| SCAN_HISTORY := []; scanned_codes := []; AUDIT_LOG := []; LEADERBOARD := [] |}.

(** The values [Array.prototype.includes] compares in [_demoScan]: the
    history holds objects, the scanned code is a string. *)
Inductive value : Type :=
| VString (s : string)
| VObject (e : Entry.t).

(** SameValueZero.  Objects compare by identity, and the objects that
    [JSON.parse] builds are identical to nothing else. *)
Definition sameValueZero (a b : value) : bool :=
  match a, b with
  | VString x, VString y => String.eqb x y
  | _, _ => false
  end.

Definition Array_includes (l : list value) (x : value) : bool :=
  existsb (fun y => sameValueZero y x) l.

(** [arr.find(pred)] is [List.find]; [arr.findIndex(pred)]: *)
Fixpoint findIndex {A : Type} (pred : A -> bool) (l : list A) : option nat :=
  match l with
  | [] => None
  | x :: rest =>
      if pred x then Some O else option_map S (findIndex pred rest)
  end.

(** [arr.sort(cmp)], which is stable: an element goes before the first one
    that [cmp] does not put ahead of it. *)
Fixpoint sort_insert {A : Type} (cmp : A -> A -> Z) (x : A) (l : list A) : list A :=
  match l with
  | [] => [x]
  | y :: rest =>
      if cmp x y <=? 0 then x :: y :: rest else y :: sort_insert cmp x rest
  end.

Definition Array_sort {A : Type} (cmp : A -> A -> Z) (l : list A) : list A :=
  fold_right (sort_insert cmp) [] l.

(** The outcome of a scan: [{ success: false, error, message }] or
    [{ success: true, result, prize, transaction_hash, message,
       total_scans, total_wins }]. *)
Inductive ScanResult : Type :=
| Failure (error message : string)
| Success (result : Outcome) (prize : option string)
          (transaction_hash message : string) (total_scans total_wins : nat).

Definition success (r : ScanResult) : bool :=
  match r with
  | Failure _ _ => false
  | Success _ _ _ _ _ _ => true
  end.

(** What a call of [submitScan] takes from its surroundings: the clock read
    for the timestamp, [Date.now()] of the rate check, the three
    [Math.random()] draws in the order the code makes them (the second only
    on a win), and the reply of the backend ([None]: the request failed). *)
Record Env : Type := {
  clock : Timestamp;
  now : Z;
  random : Q;
  prizeRandom : Q;
  seed : string;
  remote : option ScanResult
}.

(** ** api.js: the demo-mode functions *)

Module API.

(** [_generateHash].  [hash << 5] and [hash & hash] work on 32-bit
    integers; the subtraction and the addition between them are exact. *)
Definition hash_step (hash : Z) (char : Z) : Z :=
  let hash := (ToInt32 (Z.shiftl (ToInt32 hash) 5) - hash) + char in
  ToInt32 (Z.land (ToInt32 hash) (ToInt32 hash)).

Definition hash_loop (codes : list Z) : Z := fold_left hash_step codes 0.

(** [Math.abs(hash)] is at most 2^31, so [hex] stays well under 64
    characters ([toString16_length] below) and the subtraction never reaches
    the negative counts that [repeat] refuses. *)
Definition _generateHash (input : string) : string :=
  let hash := hash_loop (map Str.charCode (Str.chars input)) in
  let hex := toString16 (Z.abs hash) in
  let padding := Str.repeat "0" (64 - String.length hex) in
  Str.substring 0 64 (padding ++ hex).

(** The commitment of [_demoScan]:
    [_generateHash(qrCode + phone + timestamp + randomSeed)]. *)
Definition commit (qrCode phone timestamp randomSeed : string) : string :=
  _generateHash (qrCode ++ phone ++ timestamp ++ randomSeed).

Definition _maskPhone (phone : string) : string :=
  if (String.length phone =? 0)%nat || (String.length phone <? 7)%nat
  then phone
  else Str.substring 0 3 phone ++ "****" ++
       Str.substring_from (String.length phone - 3) phone.

Inductive Badge : Type := Gold | Silver | Bronze.

Definition _getBadge (scans : Z) : option Badge :=
  if 50 <=? scans then Some Gold
  else if 25 <=? scans then Some Silver
  else if 10 <=? scans then Some Bronze
  else None.

Definition _getScanHistory (st : Storage) : list Entry.t := SCAN_HISTORY st.

Definition _getStoredLeaderboard (st : Storage) : list User.t := LEADERBOARD st.

(** [now] is [Date.now()]. *)
Definition _getRecentScans (st : Storage) (now : Z) (phone : string) : nat :=
  let history := SCAN_HISTORY st in
  let oneHourAgo := now - 60 * 60 * 1000 in
  List.length
    (filter (fun scan =>
               String.eqb (Entry.phone scan) phone &&
               (oneHourAgo <? time (Entry.timestamp scan)))
            history).

Record Stats : Type := { totalScans : nat; totalWins : nat }.

Definition _getUserStats (st : Storage) (phone : string) : Stats :=
  let history := SCAN_HISTORY st in
  let userScans := filter (fun scan => String.eqb (Entry.phone scan) phone) history in
  {| totalScans := List.length userScans;
     totalWins :=
       List.length (filter (fun scan => Outcome_eqb (Entry.result scan) WIN) userScans) |}.

(** [user.scans++; if (isWin) user.wins++] on the first element with this
    phone, pushed with zeros when there is none. *)
Fixpoint bump (phone : string) (isWin : bool) (leaderboard : list User.t)
  : list User.t :=
  match leaderboard with
  | [] =>
      [ {| User.phone := phone; User.scans := 0 + 1;
           User.wins := if isWin then 0 + 1 else 0 |} ]
  | u :: rest =>
      if String.eqb (User.phone u) phone
      then {| User.phone := User.phone u;
              User.scans := User.scans u + 1;
              User.wins := if isWin then User.wins u + 1 else User.wins u |}
           :: rest
      else u :: bump phone isWin rest
  end.

Definition _updateLeaderboard (st : Storage) (phone : string) (isWin : bool)
  : Storage :=
  let leaderboard := _getStoredLeaderboard st in
  {| SCAN_HISTORY := SCAN_HISTORY st;
     scanned_codes := scanned_codes st;
     AUDIT_LOG := AUDIT_LOG st;
     LEADERBOARD := bump phone isWin leaderboard |}.

Definition _storeScan (st : Storage) (scan : Scan.t) : Storage :=
  (* Store in scan history *)
  let history := (_getScanHistory st ++
    [ {| Entry.qrCode := Scan.qrCode scan;
         Entry.phone := Scan.phone scan;
         Entry.timestamp := Scan.timestamp scan;
         Entry.result := Scan.result scan;
         Entry.prize := Scan.prize scan |} ])%list in
  (* Add QR code to scanned list *)
  let scannedCodes := (scanned_codes st ++ [Scan.qrCode scan])%list in
  (* If win, add to audit log *)
  let auditLog :=
    if Outcome_eqb (Scan.result scan) WIN
    then {| Audit.timestamp := Scan.timestamp scan;
            Audit.phone := Scan.phone scan;
            Audit.qrCode := Scan.qrCode scan;
            Audit.prize := Scan.prize scan;
            Audit.transactionHash := Scan.transactionHash scan;
            Audit.randomSeed := Scan.randomSeed scan |} :: AUDIT_LOG st
    else AUDIT_LOG st in
  (* Update leaderboard *)
  _updateLeaderboard
    {| SCAN_HISTORY := history;
       scanned_codes := scannedCodes;
       AUDIT_LOG := auditLog;
       LEADERBOARD := LEADERBOARD st |}
    (Scan.phone scan) (Outcome_eqb (Scan.result scan) WIN).

Section Configured.
Variable cfg : Config.

(** The loop of [_determinePrize] over [Object.entries(CONFIG.PRIZES)]. *)
Fixpoint walk (entries : list (string * Z)) (random : Q) (cumulative : Z)
  : option string :=
  match entries with
  | [] => None
  | (prize, percentage) :: rest =>
      let cumulative := cumulative + percentage in
      if Qltb random (inject_Z cumulative) then Some prize
      else walk rest random cumulative
  end.

(** [random] is the call's [Math.random() * 100].  The result is
    undefined ([None]) only for an empty table. *)
Definition _determinePrize (random : Q) : option string :=
  match walk (PRIZES cfg) random 0 with
  | Some prize => Some prize
  | None => option_map fst (hd_error (PRIZES cfg))
  end.

Definition prize_text (prize : option string) : string :=
  match prize with
  | Some p => p
  | None => "undefined"
  end.

Definition _demoScan (env : Env) (qrCode phone : string)
           (timestamp : Timestamp) (st : Storage) : ScanResult * Storage :=
  (* Validate QR code format *)
  if negb (RegExp.test (QR_PATTERN cfg) qrCode) then
    (Failure "Invalid QR code format"
             "This doesn't look like a valid GRA VAT receipt QR code.", st)
  else
  (* Check for duplicate scan *)
  let scanHistory := _getScanHistory st in
  if Array_includes (map VObject scanHistory) (VString qrCode) then
    (Failure "Duplicate scan" "This receipt has already been scanned!", st)
  else
  (* Check rate limiting *)
  let recentScans := _getRecentScans st (now env) phone in
  if MAX_SCANS_PER_HOUR cfg <=? Z.of_nat recentScans then
    (Failure "Rate limited"
             ("You've reached the limit of " ++
              Z_toString (MAX_SCANS_PER_HOUR cfg) ++
              " scans per hour. Try again later!"), st)
  else
  (* Generate random result *)
  let isWin := Qltb (random env) (inject_Z (WIN_PERCENTAGE cfg)) in
  let prize := if isWin then _determinePrize (prizeRandom env) else None in
  (* Generate transaction hash *)
  let randomSeed := seed env in
  let transactionHash := commit qrCode phone (iso timestamp) randomSeed in
  (* Store the scan *)
  let st' := _storeScan st
    {| Scan.qrCode := qrCode;
       Scan.phone := phone;
       Scan.timestamp := timestamp;
       Scan.result := if isWin then WIN else LOSE;
       Scan.prize := prize;
       Scan.transactionHash := transactionHash;
       Scan.randomSeed := randomSeed |} in
  (* Get updated stats *)
  let stats := _getUserStats st' phone in
  (Success (if isWin then WIN else LOSE) prize transactionHash
           (if isWin
            then "Congratulations! You won " ++ prize_text prize ++ "!"
            else "No win this time - keep scanning for more chances!")
           (totalScans stats) (totalWins stats),
   st').

(** [submitScan]: the demo path when [DEMO_MODE] is set or no backend is
    configured, and as the fallback when the request fails; otherwise
    the backend's reply, with nothing stored locally. *)
Definition submitScan (env : Env) (qrCode phone : string) (st : Storage)
  : ScanResult * Storage :=
  let timestamp := clock env in
  if DEMO_MODE cfg || negb (isN8nConfigured cfg) then
    _demoScan env qrCode phone timestamp st
  else
    match remote env with
    | Some response => (response, st)
    | None => _demoScan env qrCode phone timestamp st
    end.

End Configured.

(** *** The leaderboard *)

Module Row.
Record t : Type := {
  rank : nat;
  phone_masked : string;
  phone : string;
  scans : Z;
  wins : Z;
  badge : option Badge
}.
End Row.

Record Leaderboard : Type := {
  leaderboard : list Row.t;
  user_rank : option nat;
  user_scans : nat;
  user_wins : nat
}.

Definition demoUsers : list User.t :=
  [ {| User.phone := "0241234567"; User.scans := 45; User.wins := 5 |};
    {| User.phone := "0551234567"; User.scans := 38; User.wins := 3 |};
    {| User.phone := "0271234567"; User.scans := 32; User.wins := 4 |};
    {| User.phone := "0201234567"; User.scans := 28; User.wins := 2 |};
    {| User.phone := "0541234567"; User.scans := 22; User.wins := 3 |} ].

Definition has_phone (phone : string) (u : User.t) : bool :=
  String.eqb (User.phone u) phone.

(** The body of [demoUsers.forEach]. *)
Definition push_if_absent (leaderboard : list User.t) (user : User.t)
  : list User.t :=
  match find (has_phone (User.phone user)) leaderboard with
  | Some _ => leaderboard
  | None => (leaderboard ++ [user])%list
  end.

(** [existingUser.scans = ...; existingUser.wins = ...] on the element that
    [find] returned, the first with this phone. *)
Fixpoint assign_stats (phone : string) (scans wins : Z)
         (leaderboard : list User.t) : list User.t :=
  match leaderboard with
  | [] => []
  | u :: rest =>
      if has_phone phone u
      then {| User.phone := User.phone u; User.scans := scans; User.wins := wins |}
           :: rest
      else u :: assign_stats phone scans wins rest
  end.

(** [leaderboard.slice(0, 10).map((user, index) => ...)], from [index]. *)
Fixpoint rows (index : nat) (users : list User.t) : list Row.t :=
  match users with
  | [] => []
  | user :: rest =>
      {| Row.rank := index + 1;
         Row.phone_masked := _maskPhone (User.phone user);
         Row.phone := User.phone user;
         Row.scans := User.scans user;
         Row.wins := User.wins user;
         Row.badge := _getBadge (User.scans user) |}
      :: rows (S index) rest
  end.

(** "Add some demo users if leaderboard is empty". *)
Definition add_demo_users (leaderboard : list User.t) : list User.t :=
  if (List.length leaderboard <? 5)%nat
  then fold_left push_if_absent demoUsers leaderboard
  else leaderboard.

(** "Ensure current user is in leaderboard". *)
Definition ensure_current_user (userStats : Stats) (phone : string)
           (leaderboard : list User.t) : list User.t :=
  match find (has_phone phone) leaderboard with
  | Some _ =>
      assign_stats phone (Z.of_nat (totalScans userStats))
                   (Z.of_nat (totalWins userStats)) leaderboard
  | None =>
      if (0 <? totalScans userStats)%nat
      then (leaderboard ++
            [ {| User.phone := phone;
                 User.scans := Z.of_nat (totalScans userStats);
                 User.wins := Z.of_nat (totalWins userStats) |} ])%list
      else leaderboard
  end.

(** The leaderboard before it is cut and formatted: the stored one, with
    the two additions, sorted by scans. *)
Definition ranking (st : Storage) (phone : string) : list User.t :=
  let leaderboard := _getStoredLeaderboard st in
  let userStats := _getUserStats st phone in
  let leaderboard := add_demo_users leaderboard in
  let leaderboard := ensure_current_user userStats phone leaderboard in
  Array_sort (fun a b => User.scans b - User.scans a) leaderboard.

(** [period] is accepted and not used. *)
Definition _demoLeaderboard (st : Storage) (phone period : string)
  : Leaderboard :=
  let leaderboard := ranking st phone in
  let userStats := _getUserStats st phone in
  (* Calculate user rank: [findIndex(...) + 1], and [userRank || null] *)
  let userRank := option_map S (findIndex (has_phone phone) leaderboard) in
  {| leaderboard := rows 0 (firstn 10 leaderboard);
     user_rank := userRank;
     user_scans := totalScans userStats;
     user_wins := totalWins userStats |}.

(** *** The random source

    [Math.random()] as a stream of draws from [0, 1): the call that finds
    the counter at [k] returns [rnd k] and moves it to [S k]. *)













(** *** The audit log *)

Module Verification.
Record t : Type := {
  qr_hash : string;
  random_seed : string;
  combined_hash : string
}.
End Verification.

Module AuditView.
Record t : Type := {
  timestamp : Timestamp;
  phone_masked : string;
  prize : option string;
  transaction_hash : string;
  verification_data : Verification.t
}.
End AuditView.

(** [total_payouts] is the text ["GH₵"] followed by the host's locale
    rendering of [totalPayouts]; the model keeps the number. *)
Record AuditLog : Type := {
  entries : list AuditView.t;
  totalPayouts : Z;
  total_winners : nat
}.

(** [s.replace(/[^0-9]/g, '')] *)
Fixpoint keep_digits (s : string) : string :=
  match s with
  | EmptyString => EmptyString
  | String c s' =>
      if RegExp.is_digit c then String c (keep_digits s') else keep_digits s'
  end.

Fixpoint digits_value (s : string) (acc : Z) : Z :=
  match s with
  | EmptyString => acc
  | String c s' =>
      if RegExp.is_digit c
      then digits_value s' (10 * acc + (Str.charCode c - 48))
      else acc
  end.

(** [parseInt(s)] for a string that starts with a digit or is empty (what
    [keep_digits] leaves); [None] is NaN.  Exact below 2^53. *)
Definition parseInt (s : string) : option Z :=
  match s with
  | EmptyString => None
  | String c _ => if RegExp.is_digit c then Some (digits_value s 0) else None
  end.

(** The body of the [reduce] callback; [entry.prize.replace] throws on a
    prize that is null. *)
Definition add_payout (sum : completion Z) (entry : Audit.t) : completion Z :=
  match sum with
  | TypeError => TypeError
  | Normal sum =>
      match Audit.prize entry with
      | None => TypeError
      | Some prize =>
          let amount :=
            match parseInt (keep_digits prize) with
            | Some n => n
            | None => 0
            end in
          Normal (sum + amount)
      end
  end.

Definition audit_view (entry : Audit.t) : AuditView.t :=
  {| AuditView.timestamp := Audit.timestamp entry;
     AuditView.phone_masked := _maskPhone (Audit.phone entry);
     AuditView.prize := Audit.prize entry;
     AuditView.transaction_hash := Audit.transactionHash entry;
     AuditView.verification_data :=
       {| Verification.qr_hash :=
            match Audit.qrCode entry with
            | EmptyString => "..."
            | qrCode => Str.substring 0 16 (_generateHash qrCode)
            end;
          Verification.random_seed :=
            match Audit.randomSeed entry with
            | EmptyString => "..."
            | randomSeed => randomSeed
            end;
          Verification.combined_hash := Audit.transactionHash entry |} |}.

Definition _demoAuditLog (st : Storage) : completion AuditLog :=
  let auditLog := AUDIT_LOG st in
  (* Calculate totals *)
  let totalWinners := List.length auditLog in
  match fold_left add_payout auditLog (Normal 0) with
  | TypeError => TypeError
  | Normal totalPayouts =>
      Normal {| entries := map audit_view auditLog;
                totalPayouts := totalPayouts;
                total_winners := totalWinners |}
  end.

End API.

(** ** Hosts

    Two implementations of the [URL] constructor.  [Hosts.legacy] is an
    engine that has none: every [new URL(...)] throws, and the [catch] of
    [parseV2URL] runs.  [Hosts.browser] follows the URL Standard on the
    strings [parse] hands over, those that carry the verification prefix:
    scheme, host and path are fixed by the prefix, parsing cannot fail, and
    the query runs up to the first [#].  It is not a model of the constructor
    on other strings, which [parse] never passes, and rejects them. *)

Module Hosts.

Definition is_tab_or_newline (c : ascii) : bool :=
  let n := nat_of_ascii c in
  (n =? 9)%nat || (n =? 10)%nat || (n =? 13)%nat.

Definition is_c0_or_space (c : ascii) : bool := (nat_of_ascii c <=? 32)%nat.

Fixpoint filter_chars (keep : ascii -> bool) (s : string) : string :=
  match s with
  | EmptyString => EmptyString
  | String c s' =>
      if keep c then String c (filter_chars keep s') else filter_chars keep s'
  end.

(** Drop the trailing characters that satisfy [p]. *)
Fixpoint strip_trailing (p : ascii -> bool) (s : string) : string :=
  match s with
  | EmptyString => EmptyString
  | String c s' =>
      match strip_trailing p s' with
      | EmptyString => if p c then EmptyString else String c EmptyString
      | rest => String c rest
      end
  end.

Fixpoint before_first (c : ascii) (s : string) : string :=
  match s with
  | EmptyString => EmptyString
  | String a s' => if Ascii.eqb a c then EmptyString else String a (before_first c s')
  end.

Fixpoint after_first (c : ascii) (s : string) : string :=
  match s with
  | EmptyString => EmptyString
  | String a s' => if Ascii.eqb a c then s' else after_first c s'
  end.

Fixpoint split (c : ascii) (s : string) : list string :=
  match s with
  | EmptyString => [EmptyString]
  | String a s' =>
      if Ascii.eqb a c then EmptyString :: split c s'
      else match split c s' with
           | piece :: pieces => String a piece :: pieces
           | [] => [String a EmptyString]
           end
  end.

Definition hex_value (c : ascii) : option nat :=
  let n := nat_of_ascii c in
  if RegExp.is_digit c then Some (n - 48)%nat
  else if (65 <=? n)%nat && (n <=? 70)%nat then Some (n - 55)%nat
  else if (97 <=? n)%nat && (n <=? 102)%nat then Some (n - 87)%nat
  else None.

Fixpoint percent_decode (s : string) : string :=
  match s with
  | EmptyString => EmptyString
  | String c s' =>
      match s' with
      | String a (String b rest) =>
          match hex_value a, hex_value b with
          | Some x, Some y =>
              if Ascii.eqb c "%"
              then String (ascii_of_nat (16 * x + y)) (percent_decode rest)
              else String c (percent_decode s')
          | _, _ => String c (percent_decode s')
          end
      | _ => String c (percent_decode s')
      end
  end.

Fixpoint plus_to_space (s : string) : string :=
  match s with
  | EmptyString => EmptyString
  | String c s' => String (if Ascii.eqb c "+" then " "%char else c) (plus_to_space s')
  end.

(** The application/x-www-form-urlencoded parser on a query string. *)
Definition urlencoded (query : string) : list (string * string) :=
  flat_map
    (fun piece =>
       match piece with
       | EmptyString => []
       | _ => [ (percent_decode (plus_to_space (before_first "=" piece)),
                 percent_decode (plus_to_space (after_first "=" piece))) ]
       end)
    (split "&" query).

Definition query_of (input : string) : string :=
  let input := strip_trailing is_c0_or_space input in
  let input := filter_chars (fun c => negb (is_tab_or_newline c)) input in
  before_first "#" (after_first "?" input).

Definition browser : Host :=
  {| new_URL := fun input =>
       if QRParser.isV2Format input
       then Some {| searchParams := urlencoded (query_of input) |}
       else None |}.


End Hosts.

(** ** scanner.js: QRGenerator *)

(** [encodeURIComponent], a byte at a time: the unreserved characters stay,
    every other byte becomes [%XX]. *)
Module Uri.




End Uri.

(** [CONFIG.QR_V2_SETTINGS] and [CONFIG.QR_FORMAT_VERSION] of the
    configuration that goes with the generator. *)
Module QR_V2_SETTINGS.
End QR_V2_SETTINGS.



Module QRGenerator.

Import API.














End QRGenerator.

(** ** app.js: registration *)

Module App.

Record t : Type := {
  userPhone : option string;
  isRegistered : bool;
  totalScans : nat;
  totalWins : nat;
  lastScannedCode : option string;
  lastScanTime : Z
}.

(** [/^0[235][0-9]{8}$/] *)
Definition phoneRegex : RegExp.t :=
  {| RegExp.source :=
       RegExp.seq [RegExp.Lit "0";
                   RegExp.Class (fun c => Str.includes (String c "") "235");
                   RegExp.Times 8 RegExp.digit;
                   RegExp.Eos];
     RegExp.ignoreCase := false |}.

Inductive Effect : Type :=
| Toast (message kind : string)
| SetItem (key value : string).

(** [register(phone)]: the returned boolean, the application after the
    call, and what it did to the page and to [localStorage]. *)
Definition register (app : t) (phone : string) : bool * t * list Effect :=
  (* Validate phone number (Ghana format) *)
  if negb (RegExp.test phoneRegex phone) then
    (false, app, [Toast "Please enter a valid Ghana phone number" "error"])
  else
    (true,
     {| userPhone := Some phone;
        isRegistered := true;
        totalScans := totalScans app;
        totalWins := totalWins app;
        lastScannedCode := lastScannedCode app;
        lastScanTime := lastScanTime app |},
     [SetItem "evat_phone" phone; Toast "Welcome to E-VAT Lottery!" "success"]).

End App.

(** ** The properties, in the vocabulary of the specification *)

Import API.


(** The share accumulated once the walk has passed tier [i] (from 0). *)
Definition cumulative_share (prizes : list (string * Z)) (i : nat) : Z :=
  fold_right Z.add 0 (map snd (firstn (S i) prizes)).

(** Tier [i] is the first whose cumulative share exceeds [r2]. *)
Definition first_exceeding (prizes : list (string * Z)) (r2 : Q) (i : nat) : Prop :=
  (r2 < inject_Z (cumulative_share prizes i))%Q /\
  forall j, (j < i)%nat -> ~ (r2 < inject_Z (cumulative_share prizes j))%Q.

(** No tier's cumulative share exceeds [r2]. *)
Definition none_exceeding (prizes : list (string * Z)) (r2 : Q) : Prop :=
  forall j, (j < List.length prizes)%nat ->
            ~ (r2 < inject_Z (cumulative_share prizes j))%Q.

(** The redemptions of [phone] on record, and whether one falls inside the
    60 minutes that end at [now]. *)
Definition redemptions_of (st : Storage) (phone : string) : list Entry.t :=
  filter (fun e => String.eqb (Entry.phone e) phone) (SCAN_HISTORY st).

Definition within_hour (now : Z) (e : Entry.t) : Prop :=
  now - 3600000 < time (Entry.timestamp e).

Definition within_hourb (now : Z) (e : Entry.t) : bool :=
  now - 3600000 <? time (Entry.timestamp e).

(** The entries on record for one receipt code. *)
Definition entries_for (st : Storage) (qrCode : string) : list Entry.t :=
  filter (fun e => String.eqb (Entry.qrCode e) qrCode) (SCAN_HISTORY st).


Definition DuplicateReceiptError (r : ScanResult) : Prop :=
  exists message, r = Failure "Duplicate scan" message.

Definition RateLimitedError (r : ScanResult) : Prop :=
  exists message, r = Failure "Rate limited" message.

(** ** More vocabulary: stores the code can reach, shapes of patterns *)

(** The stores that calls of [submitScan] lead to from an empty
    [localStorage] (which is also what [clearDemoData] leaves). *)
Inductive reachable (cfg : Config) : Storage -> Prop :=
| reach_empty : reachable cfg empty_storage
| reach_scan (env : Env) (qrCode phone : string) (st : Storage) :
    reachable cfg st ->
    reachable cfg (snd (submitScan cfg env qrCode phone st)).

Definition is_win (e : Entry.t) : bool := Outcome_eqb (Entry.result e) WIN.

(** What a history entry and an audit entry have in common. *)
Definition entry_fields (e : Entry.t) : string * string * Timestamp * option string :=
  (Entry.qrCode e, Entry.phone e, Entry.timestamp e, Entry.prize e).

Definition audit_fields (a : Audit.t) : string * string * Timestamp * option string :=
  (Audit.qrCode a, Audit.phone a, Audit.timestamp a, Audit.prize a).

(** The number of characters a pattern consumes, when every match of it
    consumes the same number. *)
Fixpoint re_width (r : RegExp.re) : option nat :=
  match r with
  | RegExp.Lit s => Some (String.length s)
  | RegExp.Class _ => Some 1%nat
  | RegExp.Cat r1 r2 =>
      match re_width r1, re_width r2 with
      | Some a, Some b => Some (a + b)%nat
      | _, _ => None
      end
  | RegExp.Or r1 r2 =>
      match re_width r1, re_width r2 with
      | Some a, Some b => if (a =? b)%nat then Some a else None
      | _, _ => None
      end
  | RegExp.Opt _ => None
  | RegExp.Times n r1 =>
      match re_width r1 with
      | Some a => Some (n * a)%nat
      | None => None
      end
  | RegExp.Eos => Some 0%nat
  end.

(** The pattern ends with [$]. *)
Fixpoint re_anchored (r : RegExp.re) : bool :=
  match r with
  | RegExp.Eos => true
  | RegExp.Cat r1 r2 =>
      re_anchored r2 ||
      (re_anchored r1 &&
       match r2 with RegExp.Lit EmptyString => true | _ => false end)
  | _ => false
  end.

(** The characters the generators draw from, with the separator. *)
Definition is_block_char (c : ascii) : bool :=
  RegExp.is_upper c || RegExp.is_digit c.

Definition is_safe_char (c : ascii) : bool :=
  is_block_char c || Ascii.eqb c "-".

Definition all_chars (p : ascii -> bool) (s : string) : bool :=
  forallb p (Str.chars s).


(** The scans of the list are in descending order. *)
Definition descending (users : list User.t) : Prop :=
  StronglySorted (fun a b => User.scans b <= User.scans a) users.

Definition badge_rank (b : option Badge) : Z :=
  match b with
  | Some Gold => 3
  | Some Silver => 2
  | Some Bronze => 1
  | None => 0
  end.

(** The polynomial that the loop of [_generateHash] evaluates, before any
    wrap-around: c0 * 31^(n-1) + ... + c(n-1). *)
Definition poly31 (codes : list Z) : Z :=
  fold_left (fun h c => 31 * h + c) codes 0.

(** ** Sample data *)


Module Sample.

Definition token : string := "GRA-VAT-2024-AB12-CD34-EF56".

Definition signed_url : string :=
  "https://evat.gra.gov.gh/verify?sdc=12345678&rcpt=INV-0001&data=QUJD&ts=20240501100000&sig=9f3a".

Definition phone : string := "0241234567".

(** 2024-05-01T10:00:00.000Z *)
Definition t0 : Z := 1714557600000.

Definition env (r r2 : Q) (at_ : Z) (iso_ : string) : Env :=
  {| clock := {| iso := iso_; time := at_ |};
     now := at_;
     random := r;
     prizeRandom := r2;
     seed := "k3j9x0p2q1a";
     remote := None |}.

Definition env_lose : Env := env (55 # 1) (80 # 1) t0 "2024-05-01T10:00:00.000Z".

Definition env_win : Env := env (5 # 1) (80 # 1) t0 "2024-05-01T10:00:00.000Z".

(** A minute later. *)
Definition env_later : Env :=
  env (55 # 1) (80 # 1) (t0 + 60000) "2024-05-01T10:01:00.000Z".

Definition entry (qr : string) (at_ : Z) : Entry.t :=
  {| Entry.qrCode := qr;
     Entry.phone := phone;
     Entry.timestamp := {| iso := ""; time := at_ |};
     Entry.result := LOSE;
     Entry.prize := None |}.

(** Ten redemptions of [phone], one every five minutes up to [t0]. *)
Definition ten_scans : Storage :=
  {| SCAN_HISTORY :=
       map (fun k => entry "GRA-VAT-2024-0000-0000-0000" (t0 - 300000 * Z.of_nat k))
           (seq 0 10);
     scanned_codes := [];
     AUDIT_LOG := [];
     LEADERBOARD := [ {| User.phone := phone; User.scans := 10; User.wins := 0 |} ] |}.

(** The hour has passed for the oldest of [ten_scans]: it is 60 minutes
    old to the millisecond. *)
Definition env_aged : Env :=
  env (55 # 1) (80 # 1) (t0 + 900000) "2024-05-01T10:15:00.000Z".

Definition url_without_rcpt : string :=
  "https://evat.gra.gov.gh/verify?sdc=12345678".

(** Two simple tokens that differ in their last two characters. *)
Definition token_Q : string := "GRA-VAT-2024-AAAA-AAAA-AAAQ".
Definition token_2 : string := "GRA-VAT-2024-AAAA-AAAA-AAB2".

Definition iso0 : string := "2024-05-01T10:00:00.000Z".

End Sample.

Module Fixture.



Definition app : App.t :=
  {| App.userPhone := None; App.isRegistered := false;
     App.totalScans := 0; App.totalWins := 0;
     App.lastScannedCode := None; App.lastScanTime := 0 |}.

(** The store after a winning scan and a losing one. *)
Definition two_scans : Storage :=
  snd (submitScan CONFIG Sample.env_later Sample.token_Q "0551234567"
         (snd (submitScan CONFIG Sample.env_win Sample.token Sample.phone
                 empty_storage))).

End Fixture.

(** * The model at work *)

Section Evaluation.

Example token_is_v1 : QRParser.isV1Format "GRA-VAT-2024-AB12-CD34-EF56" = true.
Proof. reflexivity. Qed.

Example short_token_is_not_v1 : QRParser.isV1Format "GRA-VAT-2024-AB12-CD34-EF5" = false.
Proof. reflexivity. Qed.

Example long_token_is_not_v1 : QRParser.isV1Format "GRA-VAT-2024-AB12-CD34-EF567" = false.
Proof. reflexivity. Qed.

Example lower_case_is_not_v1 : QRParser.isV1Format "GRA-VAT-2024-ab12-CD34-EF56" = false.
Proof. reflexivity. Qed.

Example url_prefix_ignores_case : QRParser.isV2Format "HTTP://VSDC.vat-gh.com/Verify?x=1" = true.
Proof. reflexivity. Qed.

Example url_needs_query : QRParser.isV2Format "https://evat.gra.gov.gh/verify" = false.
Proof. reflexivity. Qed.

Example url_fields :
  @QRParser.parseV2URL Hosts.browser Sample.signed_url =
  Some {| QRParser.sdcId := Some "12345678";
          QRParser.rcptNum := Some "INV-0001";
          QRParser.internalData := Some "QUJD";
          QRParser.ts := Some "20240501100000";
          QRParser.sig := Some "9f3a";
          QRParser.timestampFormatted := "2024/05/01 10:00:00" |}.
Proof. reflexivity. Qed.

Example hash_of_Aa :
  _generateHash "Aa" =
  "0000000000000000000000000000000000000000000000000000000000000840".
Proof. reflexivity. Qed.

Example hash_of_sentence :
  _generateHash "hello world, this is a long string" =
  "00000000000000000000000000000000000000000000000000000000405ebd8a".
Proof. reflexivity. Qed.

Example hex_of_int32_min : toString16 (Z.abs (ToInt32 (2 ^ 31))) = "80000000".
Proof. reflexivity. Qed.

Example masked_phone : _maskPhone "0241234567" = "024****567".
Proof. reflexivity. Qed.

Example badges :
  map _getBadge [50; 49; 25; 24; 10; 9] =
  [Some Gold; Some Silver; Some Silver; Some Bronze; Some Bronze; None].
Proof. reflexivity. Qed.

Example first_scan_counts :
  LEADERBOARD (snd (submitScan CONFIG Sample.env_win Sample.token Sample.phone empty_storage)) =
  [ {| User.phone := Sample.phone; User.scans := 1; User.wins := 1 |} ].
Proof. reflexivity. Qed.

End Evaluation.

(** * Receipt Code Parser *)

Section ParserFacts.
Import QRParser.

(** A pattern that begins with a literal only matches inputs that begin
    with the literal's first character (up to the case folding). *)
Lemma test_literal_head (ic : bool) (a : ascii) (p : string) (r : RegExp.re)
      (b : ascii) (s : string) :
  RegExp.test {| RegExp.source := RegExp.Cat (RegExp.Lit (String a p)) r;
                 RegExp.ignoreCase := ic |} (String b s) = true ->
  RegExp.canon ic a = RegExp.canon ic b.
Proof.
  unfold RegExp.test. simpl RegExp.residues.
  destruct (Ascii.eqb (RegExp.canon ic a) (RegExp.canon ic b)) eqn:E.
  - intros _. now apply Ascii.eqb_eq.
  - simpl. discriminate.
Qed.

Lemma v1_starts_with_G (c : ascii) (s : string) :
  isV1Format (String c s) = true -> c = "G"%char.
Proof.
  intros E. apply test_literal_head in E. symmetry. exact E.
Qed.

Lemma v2_not_starting_with_G (s : string) :
  isV2Format (String "G" s) = false.
Proof. reflexivity. Qed.

(** The two grammars share no string. *)
Lemma formats_disjoint (s : string) :
  isV2Format s = true -> isV1Format s = false.
Proof.
  intros H2. destruct (isV1Format s) eqn:H1; [|reflexivity].
  destruct s as [|c s].
  - discriminate H1.
  - apply v1_starts_with_G in H1. subst c.
    rewrite v2_not_starting_with_G in H2. discriminate.
Qed.

Context `{Host}.

Lemma parse_v2 (s : string) :
  isV2Format s = true ->
  parse s = {| version := v2; valid := true;
               data := option_map DataV2 (parseV2URL s);
               raw := s; error := None |}.
Proof. intros E. unfold parse. now rewrite E. Qed.

Lemma parse_v1 (s : string) :
  isV1Format s = true ->
  parse s = {| version := v1; valid := true; data := Some (DataV1 s);
               raw := s; error := None |}.
Proof.
  intros E. unfold parse.
  destruct (isV2Format s) eqn:E2.
  - apply formats_disjoint in E2. congruence.
  - now rewrite E.
Qed.

Lemma parse_unknown (s : string) :
  isV2Format s = false -> isV1Format s = false ->
  parse s = {| version := unknown; valid := false; data := None; raw := s;
               error := Some "Unrecognized QR code format" |}.
Proof. intros E2 E1. unfold parse. now rewrite E2, E1. Qed.

(** C3, as amended: a simple token is valid and its unique id is the token
    itself; a string with the URL prefix on which the URL constructor
    succeeds is valid and its unique id is the value of [rcpt], or nothing
    when the URL carries no such parameter; a string of neither grammar is
    not valid and has no unique id. *)
Theorem uniqueId_of_parse (qrContent : string) :
  (isV1Format qrContent = true ->
     valid (parse qrContent) = true /\
     getUniqueId (parse qrContent) = Normal (Some qrContent)) /\
  (forall url,
     isV2Format qrContent = true -> new_URL qrContent = Some url ->
     valid (parse qrContent) = true /\
     getUniqueId (parse qrContent) =
       Normal (URLSearchParams_get (searchParams url) "rcpt")) /\
  (isV2Format qrContent = false -> isV1Format qrContent = false ->
     valid (parse qrContent) = false /\
     getUniqueId (parse qrContent) = Normal None).
Proof.
  split; [|split].
  - intros E1. rewrite (parse_v1 _ E1). split; reflexivity.
  - intros url E2 Eurl. rewrite (parse_v2 _ E2). split; [reflexivity|].
    unfold getUniqueId, parseV2URL; cbn. now rewrite Eurl.
  - intros E2 E1. rewrite (parse_unknown _ E2 E1). split; reflexivity.
Qed.


End ParserFacts.

(** * The redemption transaction *)

Section ScanFacts.
Variable cfg : Config.

(** The history holds objects and the scanned code is a string: the
    [includes] test of [_demoScan] is false on every history. *)
Lemma includes_objects (history : list Entry.t) (qrCode : string) :
  Array_includes (map VObject history) (VString qrCode) = false.
Proof.
  unfold Array_includes.
  induction history as [|e history IH]; simpl; [reflexivity | exact IH].
Qed.


Lemma demoScan_limited env qrCode phone timestamp st :
  RegExp.test (QR_PATTERN cfg) qrCode = true ->
  MAX_SCANS_PER_HOUR cfg <= Z.of_nat (_getRecentScans st (now env) phone) ->
  _demoScan cfg env qrCode phone timestamp st =
    (Failure "Rate limited"
             ("You've reached the limit of " ++
              Z_toString (MAX_SCANS_PER_HOUR cfg) ++
              " scans per hour. Try again later!"), st).
Proof.
  intros E L. unfold _demoScan. rewrite E, includes_objects. simpl.
  apply Z.leb_le in L. now rewrite L.
Qed.

Lemma demoScan_stored env qrCode phone timestamp st :
  RegExp.test (QR_PATTERN cfg) qrCode = true ->
  Z.of_nat (_getRecentScans st (now env) phone) < MAX_SCANS_PER_HOUR cfg ->
  exists scan,
    Scan.qrCode scan = qrCode /\ Scan.phone scan = phone /\
    snd (_demoScan cfg env qrCode phone timestamp st) = _storeScan st scan /\
    success (fst (_demoScan cfg env qrCode phone timestamp st)) = true.
Proof.
  intros E L. unfold _demoScan. rewrite E, includes_objects. simpl.
  apply Z.leb_gt in L. rewrite L.
  eexists. split; [|split; [|split]]; cycle 2.
  - simpl. reflexivity.
  - reflexivity.
  - reflexivity.
  - reflexivity.
Qed.

(** The duplicate error is returned by no call of [_demoScan]. *)
Lemma duplicate_never_reported env qrCode phone timestamp st :
  ~ DuplicateReceiptError (fst (_demoScan cfg env qrCode phone timestamp st)).
Proof.
  intros [message E]. unfold _demoScan in E.
  rewrite includes_objects in E.
  destruct (RegExp.test (QR_PATTERN cfg) qrCode); simpl in E; [|discriminate].
  destruct (MAX_SCANS_PER_HOUR cfg <=? _); simpl in E; discriminate.
Qed.

Lemma submitScan_demo env qrCode phone st :
  DEMO_MODE cfg = true ->
  submitScan cfg env qrCode phone st =
    _demoScan cfg env qrCode phone (clock env) st.
Proof. intros E. unfold submitScan. now rewrite E. Qed.


(** C9: a call of [submitScan] that returns an error leaves the store as
    it was: no history entry, no scanned code, no audit entry and no
    leaderboard count is written. *)
Theorem failure_leaves_storage env qrCode phone st :
  success (fst (submitScan cfg env qrCode phone st)) = false ->
  snd (submitScan cfg env qrCode phone st) = st.
Proof.
  assert (D : forall timestamp,
             success (fst (_demoScan cfg env qrCode phone timestamp st)) = false ->
             snd (_demoScan cfg env qrCode phone timestamp st) = st).
  { intros timestamp. unfold _demoScan. rewrite includes_objects.
    destruct (RegExp.test (QR_PATTERN cfg) qrCode); simpl; [|reflexivity].
    destruct (MAX_SCANS_PER_HOUR cfg <=? _); simpl;
      [reflexivity | discriminate]. }
  unfold submitScan.
  destruct (DEMO_MODE cfg || negb (isN8nConfigured cfg)); [apply D|].
  destruct (remote env); [reflexivity | apply D].
Qed.

End ScanFacts.

Section RateLimit.
Variable cfg : Config.

Lemma filter_both {A : Type} (f g : A -> bool) (l : list A) :
  filter (fun x => f x && g x) l = filter g (filter f l).
Proof.
  induction l as [|x l IH]; simpl; [reflexivity|].
  destruct (f x); simpl; [|exact IH].
  destruct (g x); now rewrite IH.
Qed.

Lemma filter_all {A : Type} (f : A -> bool) (l : list A) :
  Forall (fun x => f x = true) l -> filter f l = l.
Proof.
  induction 1 as [|x l Hx _ IH]; simpl; [reflexivity|].
  now rewrite Hx, IH.
Qed.

(** The count of [_getRecentScans] is the number of the participant's
    redemptions inside the trailing hour. *)
Lemma recent_scans_count (st : Storage) (now : Z) (phone : string) :
  _getRecentScans st now phone =
  List.length (filter (within_hourb now) (redemptions_of st phone)).
Proof.
  unfold _getRecentScans, redemptions_of. now rewrite filter_both.
Qed.

(** C8: with the maximum set to 10, an attempt by a participant whose ten
    redemptions on record all fall inside the trailing 60 minutes is
    refused as rate limited, with a message that states the limit; an
    attempt made when fewer than ten of them fall inside that window is
    not rate limited, and goes through. *)
Theorem rate_limit_at_ten env qrCode phone st :
  DEMO_MODE cfg = true ->
  MAX_SCANS_PER_HOUR cfg = 10 ->
  RegExp.test (QR_PATTERN cfg) qrCode = true ->
  (List.length (redemptions_of st phone) = 10%nat ->
   Forall (within_hour (now env)) (redemptions_of st phone) ->
   fst (submitScan cfg env qrCode phone st) =
     Failure "Rate limited"
             "You've reached the limit of 10 scans per hour. Try again later!") /\
  ((List.length (filter (within_hourb (now env)) (redemptions_of st phone)) < 10)%nat ->
   ~ RateLimitedError (fst (submitScan cfg env qrCode phone st)) /\
   success (fst (submitScan cfg env qrCode phone st)) = true).
Proof.
  intros Edemo Emax Epat. rewrite (submitScan_demo _ _ _ _ _ Edemo). split.
  - intros Hten Hall.
    rewrite demoScan_limited; [now rewrite Emax | exact Epat |].
    rewrite recent_scans_count, filter_all, Hten, Emax; [lia|].
    eapply Forall_impl; [|exact Hall].
    intros e He. now apply Z.ltb_lt.
  - intros Hfew.
    destruct (demoScan_stored cfg env qrCode phone (clock env) st Epat)
      as (scan & _ & _ & _ & Hok).
    { rewrite recent_scans_count, Emax. lia. }
    split; [|exact Hok].
    intros [message E]. rewrite E in Hok. discriminate.
Qed.

End RateLimit.

(** * A receipt redeemed twice *)

(** C1, on the code: the history that [includes] searches holds entry
    objects and never the code string, so the same simple token is accepted
    a second time and a second entry for it is recorded. *)
Theorem duplicate_redeemed_twice :
  let first := submitScan CONFIG Sample.env_lose Sample.token Sample.phone empty_storage in
  let second := submitScan CONFIG Sample.env_later Sample.token Sample.phone (snd first) in
  success (fst first) = true /\
  success (fst second) = true /\
  List.length (entries_for (snd second) Sample.token) = 2%nat /\
  scanned_codes (snd second) = [Sample.token; Sample.token].
Proof. vm_compute. repeat split. Qed.

(** * The draw *)

Section Draw.
Variable cfg : Config.

Lemma Qltb_lt (x y : Q) : Qltb x y = true <-> (x < y)%Q.
Proof.
  unfold Qltb. rewrite negb_true_iff. split.
  - intros E. apply Qnot_le_lt. intros L.
    apply Qle_bool_iff in L. congruence.
  - intros L. destruct (Qle_bool y x) eqn:E; [|reflexivity].
    apply Qle_bool_iff in E. exfalso. exact (Qlt_not_le _ _ L E).
Qed.

Lemma Qltb_nlt (x y : Q) : Qltb x y = false <-> ~ (x < y)%Q.
Proof.
  rewrite <- Qltb_lt. destruct (Qltb x y); split; congruence.
Qed.

Lemma cumulative_share_0 label share rest :
  cumulative_share ((label, share) :: rest) 0 = share.
Proof. unfold cumulative_share. simpl. lia. Qed.

Lemma cumulative_share_S label share rest i :
  cumulative_share ((label, share) :: rest) (S i) =
  share + cumulative_share rest i.
Proof. reflexivity. Qed.

(** The walk from an accumulated share [acc] returns the first tier whose
    running total exceeds [r2]. *)
Lemma walk_first (r2 : Q) (entries : list (string * Z)) :
  forall acc i label share,
    nth_error entries i = Some (label, share) ->
    (r2 < inject_Z (acc + cumulative_share entries i))%Q ->
    (forall j, (j < i)%nat ->
               ~ (r2 < inject_Z (acc + cumulative_share entries j))%Q) ->
    walk entries r2 acc = Some label.
Proof.
  induction entries as [|[l0 s0] rest IH]; intros acc i label share Hnth Hlt Hmin.
  - destruct i; discriminate.
  - simpl. destruct i as [|i].
    + injection Hnth as -> ->.
      rewrite cumulative_share_0 in Hlt.
      apply Qltb_lt in Hlt. now rewrite Hlt.
    + assert (H0 : Qltb r2 (inject_Z (acc + s0)) = false).
      { apply Qltb_nlt. specialize (Hmin O ltac:(lia)).
        now rewrite cumulative_share_0 in Hmin. }
      rewrite H0. apply (IH (acc + s0) i label share Hnth).
      * rewrite cumulative_share_S in Hlt. now rewrite <- Z.add_assoc.
      * intros j Hj. specialize (Hmin (S j) ltac:(lia)).
        rewrite cumulative_share_S in Hmin. now rewrite <- Z.add_assoc.
Qed.

Lemma walk_none (r2 : Q) (entries : list (string * Z)) :
  forall acc,
    (forall j, (j < List.length entries)%nat ->
               ~ (r2 < inject_Z (acc + cumulative_share entries j))%Q) ->
    walk entries r2 acc = None.
Proof.
  induction entries as [|[l0 s0] rest IH]; intros acc Hnone;
    [reflexivity|].
  simpl.
  assert (H0 : Qltb r2 (inject_Z (acc + s0)) = false).
  { apply Qltb_nlt. specialize (Hnone O ltac:(simpl; lia)).
    now rewrite cumulative_share_0 in Hnone. }
  rewrite H0. apply IH. intros j Hj.
  specialize (Hnone (S j) ltac:(simpl; lia)).
  rewrite cumulative_share_S in Hnone. now rewrite <- Z.add_assoc.
Qed.

Lemma determinePrize_first (r2 : Q) i label share :
  nth_error (PRIZES cfg) i = Some (label, share) ->
  first_exceeding (PRIZES cfg) r2 i ->
  _determinePrize cfg r2 = Some label.
Proof.
  intros Hnth [Hlt Hmin]. unfold _determinePrize.
  now rewrite (walk_first r2 (PRIZES cfg) 0 i label share Hnth Hlt Hmin).
Qed.

Lemma determinePrize_fallback (r2 : Q) :
  none_exceeding (PRIZES cfg) r2 ->
  _determinePrize cfg r2 = option_map fst (hd_error (PRIZES cfg)).
Proof.
  intros Hnone. unfold _determinePrize.
  now rewrite (walk_none r2 (PRIZES cfg) 0 Hnone).
Qed.

(** C5: in a scan that goes through, with draws [r] and [r2], the outcome
    is WIN exactly when [r] is below the win percentage; on WIN the prize
    is the first tier, in the order of the table, whose cumulative share
    exceeds [r2], and the first tier of the table when no cumulative share
    does; on LOSE there is no prize. *)
Theorem draw_correct env qrCode phone timestamp st
        outcome prize hash message scans wins st' :
  _demoScan cfg env qrCode phone timestamp st =
    (Success outcome prize hash message scans wins, st') ->
  (outcome = WIN <-> (random env < inject_Z (WIN_PERCENTAGE cfg))%Q) /\
  (outcome = WIN ->
   forall i label share,
     nth_error (PRIZES cfg) i = Some (label, share) ->
     first_exceeding (PRIZES cfg) (prizeRandom env) i ->
     prize = Some label) /\
  (outcome = WIN ->
   none_exceeding (PRIZES cfg) (prizeRandom env) ->
   prize = option_map fst (hd_error (PRIZES cfg))) /\
  (outcome = LOSE -> prize = None).
Proof.
  unfold _demoScan. rewrite includes_objects.
  destruct (RegExp.test (QR_PATTERN cfg) qrCode); simpl; [|discriminate].
  destruct (MAX_SCANS_PER_HOUR cfg <=? _); simpl; [discriminate|].
  destruct (Qltb (random env) (inject_Z (WIN_PERCENTAGE cfg))) eqn:Ewin;
    intros E; injection E as <- <- _ _ _ _ _.
  - apply Qltb_lt in Ewin. repeat split; try (intros; assumption).
    + intros _ i label share Hnth Hfirst.
      exact (determinePrize_first _ i label share Hnth Hfirst).
    + intros _ Hnone. exact (determinePrize_fallback _ Hnone).
    + discriminate.
  - apply Qltb_nlt in Ewin. repeat split; try discriminate.
    intros L. contradiction.
Qed.

End Draw.

(** * The commitment *)

Section Commitment.

Lemma string_length_app (a b : string) :
  String.length (a ++ b) = (String.length a + String.length b)%nat.
Proof. induction a as [|c a IH]; simpl; [reflexivity | now rewrite IH]. Qed.

Lemma chars_app (a b : string) :
  Str.chars (a ++ b) = (Str.chars a ++ Str.chars b)%list.
Proof.
  unfold Str.chars. induction a as [|c a IH]; simpl;
    [reflexivity | now rewrite IH].
Qed.

Lemma length_repeat_char (c : ascii) (n : nat) :
  String.length (Str.repeat (String c "") n) = n.
Proof. induction n as [|n IH]; simpl; [reflexivity | now rewrite IH]. Qed.


Lemma substring_all (s : string) :
  String.substring 0 (String.length s) s = s.
Proof. induction s as [|c s IH]; simpl; [reflexivity | now rewrite IH]. Qed.

Lemma ToInt32_range (z : Z) : - 2 ^ 31 <= ToInt32 z < 2 ^ 31.
Proof.
  unfold ToInt32.
  pose proof (Z.mod_pos_bound z (2 ^ 32) ltac:(lia)) as B.
  destruct (2 ^ 31 <=? z mod 2 ^ 32) eqn:E.
  - apply Z.leb_le in E. lia.
  - apply Z.leb_gt in E. lia.
Qed.

Lemma hash_loop_range (codes : list Z) :
  - 2 ^ 31 <= hash_loop codes < 2 ^ 31.
Proof.
  unfold hash_loop.
  assert (G : forall acc, - 2 ^ 31 <= acc < 2 ^ 31 ->
                          - 2 ^ 31 <= fold_left hash_step codes acc < 2 ^ 31).
  { induction codes as [|c codes IH]; intros acc Hacc; simpl; [exact Hacc|].
    apply IH. unfold hash_step. apply ToInt32_range. }
  apply G. lia.
Qed.


Lemma hex_digits_length (fuel : nat) :
  forall n acc,
    (String.length acc <= String.length (hex_digits fuel n acc)
     <= fuel + String.length acc)%nat.
Proof.
  induction fuel as [|fuel IH]; intros n acc; simpl; [lia|].
  destruct (n / 16 =? 0); simpl; [lia|].
  specialize (IH (n / 16) (String (hex_digit (n mod 16)) acc)).
  simpl in IH. lia.
Qed.

Lemma hex_digits_nonempty (fuel : nat) (n : Z) :
  (1 <= String.length (hex_digits (S fuel) n ""))%nat.
Proof.
  simpl. destruct (n / 16 =? 0); simpl; [lia|].
  pose proof (hex_digits_length fuel (n / 16)
                (String (hex_digit (n mod 16)) "")) as B.
  simpl in B. lia.
Qed.





(** C6, as amended: two calls with the same four inputs give the same
    commitment, and so do two calls whose inputs concatenate to the same
    text; inputs that differ are not promised different commitments. *)
Theorem commit_deterministic (r p t s r' p' t' s' : string) :
  (r = r' -> p = p' -> t = t' -> s = s' ->
   commit r p t s = commit r' p' t' s') /\
  (r ++ p ++ t ++ s = r' ++ p' ++ t' ++ s' ->
   commit r p t s = commit r' p' t' s').
Proof.
  split.
  - intros -> -> -> ->. reflexivity.
  - intros E. unfold commit. now rewrite E.
Qed.

End Commitment.

(** * The leaderboard *)

Section LeaderboardFacts.












Lemma sort_insert_perm {A : Type} (cmp : A -> A -> Z) (x : A) (l : list A) :
  Permutation (sort_insert cmp x l) (x :: l).
Proof.
  induction l as [|y l IH]; simpl; [reflexivity|].
  destruct (cmp x y <=? 0); [reflexivity|].
  rewrite IH. apply perm_swap.
Qed.










End LeaderboardFacts.

(** * The theorems at concrete inputs *)

Section Instances.
Import QRParser.



(** C3, a string with the URL prefix and no [rcpt] parameter is valid and
    has no unique id. *)
Lemma valid_url_without_rcpt :
  isV2Format Sample.url_without_rcpt = true /\
  valid (@parse Hosts.browser Sample.url_without_rcpt) = true /\
  getUniqueId (@parse Hosts.browser Sample.url_without_rcpt) = Normal None.
Proof. repeat split. Qed.

Lemma uniqueId_of_parse_witness :
  (isV1Format Sample.token = true /\
   getUniqueId (@parse Hosts.browser Sample.token) = Normal (Some Sample.token)) /\
  (isV2Format Sample.signed_url = true /\
   getUniqueId (@parse Hosts.browser Sample.signed_url) = Normal (Some "INV-0001")) /\
  (isV2Format "hello" = false /\ isV1Format "hello" = false /\
   valid (@parse Hosts.browser "hello") = false /\
   getUniqueId (@parse Hosts.browser "hello") = Normal None).
Proof.
  split; [|split].
  - split; [reflexivity|].
    exact (proj2 (proj1 (@uniqueId_of_parse Hosts.browser Sample.token) eq_refl)).
  - split; [reflexivity|].
    exact (proj2 (proj1 (proj2 (@uniqueId_of_parse Hosts.browser Sample.signed_url))
                    _ eq_refl eq_refl)).
  - split; [reflexivity|]. split; [reflexivity|].
    exact (proj2 (proj2 (@uniqueId_of_parse Hosts.browser "hello")) eq_refl eq_refl).
Defined.


(** A winning scan with draws 5 and 80: 80 is past the first tier's 70 and
    below the 95 accumulated at the second. *)
Lemma draw_correct_witness :
  _demoScan CONFIG Sample.env_win Sample.token Sample.phone
            (clock Sample.env_win) empty_storage =
    (Success WIN (Some "GH₵10 Airtime")
             "0000000000000000000000000000000000000000000000000000000071899b27"
             "Congratulations! You won GH₵10 Airtime!" 1 1,
     snd (_demoScan CONFIG Sample.env_win Sample.token Sample.phone
                    (clock Sample.env_win) empty_storage)) /\
  (random Sample.env_win < inject_Z (WIN_PERCENTAGE CONFIG))%Q /\
  nth_error (PRIZES CONFIG) 1 = Some ("GH₵10 Airtime", 25) /\
  first_exceeding (PRIZES CONFIG) (prizeRandom Sample.env_win) 1.
Proof.
  assert (Hfirst : first_exceeding (PRIZES CONFIG) (prizeRandom Sample.env_win) 1).
  { split; [reflexivity|].
    intros j Hj Hlt. assert (j = 0%nat) as -> by lia.
    vm_compute in Hlt. discriminate Hlt. }
  assert (Hrun :
    _demoScan CONFIG Sample.env_win Sample.token Sample.phone
              (clock Sample.env_win) empty_storage =
      (Success WIN (Some "GH₵10 Airtime")
               "0000000000000000000000000000000000000000000000000000000071899b27"
               "Congratulations! You won GH₵10 Airtime!" 1 1,
       snd (_demoScan CONFIG Sample.env_win Sample.token Sample.phone
                      (clock Sample.env_win) empty_storage))).
  { vm_compute. reflexivity. }
  pose proof (draw_correct CONFIG _ _ _ _ _ _ _ _ _ _ _ _ Hrun)
    as (Hwin & Htier & _ & _).
  pose proof (Htier eq_refl 1%nat _ _ eq_refl Hfirst) as _.
  split; [exact Hrun|]. split; [exact (proj1 Hwin eq_refl)|].
  split; [reflexivity | exact Hfirst].
Defined.

(** C6, two simple tokens with the same commitment, the other three inputs
    held fixed. *)
Lemma commit_collision :
  Sample.token_Q <> Sample.token_2 /\
  isV1Format Sample.token_Q = true /\
  isV1Format Sample.token_2 = true /\
  commit Sample.token_Q Sample.phone Sample.iso0 "k3j9x0p2q1a" =
  commit Sample.token_2 Sample.phone Sample.iso0 "k3j9x0p2q1a".
Proof.
  split; [discriminate|]. repeat split.
Qed.

Lemma commit_deterministic_witness :
  "GRA-VAT-2024" ++ "-AB12" ++ "0241" ++ "234567" =
  "GRA-VAT-2024-AB12" ++ "" ++ "02412" ++ "34567" /\
  commit "GRA-VAT-2024" "-AB12" "0241" "234567" =
  commit "GRA-VAT-2024-AB12" "" "02412" "34567" /\
  commit Sample.token Sample.phone Sample.iso0 "k3j9x0p2q1a" =
  commit Sample.token Sample.phone Sample.iso0 "k3j9x0p2q1a".
Proof.
  split; [reflexivity|]. split.
  - exact (proj2 (commit_deterministic "GRA-VAT-2024" "-AB12" "0241" "234567"
                    "GRA-VAT-2024-AB12" "" "02412" "34567") eq_refl).
  - exact (proj1 (commit_deterministic Sample.token Sample.phone Sample.iso0
                    "k3j9x0p2q1a" Sample.token Sample.phone Sample.iso0
                    "k3j9x0p2q1a") eq_refl eq_refl eq_refl eq_refl).
Defined.

(** Ten redemptions in the last 45 minutes: the next attempt is refused.
    A quarter of an hour later the oldest is 60 minutes old, nine remain
    inside the window, and the attempt goes through. *)
Lemma rate_limit_at_ten_witness :
  List.length (redemptions_of Sample.ten_scans Sample.phone) = 10%nat /\
  Forall (within_hour (now Sample.env_lose))
         (redemptions_of Sample.ten_scans Sample.phone) /\
  fst (submitScan CONFIG Sample.env_lose Sample.token Sample.phone Sample.ten_scans) =
    Failure "Rate limited"
            "You've reached the limit of 10 scans per hour. Try again later!" /\
  List.length (filter (within_hourb (now Sample.env_aged))
                      (redemptions_of Sample.ten_scans Sample.phone)) = 9%nat /\
  success (fst (submitScan CONFIG Sample.env_aged Sample.token Sample.phone
                           Sample.ten_scans)) = true.
Proof.
  assert (Hall : Forall (within_hour (now Sample.env_lose))
                        (redemptions_of Sample.ten_scans Sample.phone)).
  { repeat constructor. }
  split; [reflexivity|]. split; [exact Hall|]. split.
  - exact (proj1 (rate_limit_at_ten CONFIG Sample.env_lose Sample.token
                    Sample.phone Sample.ten_scans eq_refl eq_refl eq_refl)
                 eq_refl Hall).
  - split; [reflexivity|].
    refine (proj2 (proj2 (rate_limit_at_ten CONFIG Sample.env_aged Sample.token
                            Sample.phone Sample.ten_scans eq_refl eq_refl eq_refl)
                         _)).
    vm_compute. lia.
Defined.

Lemma failure_leaves_storage_witness :
  success (fst (submitScan CONFIG Sample.env_lose Sample.token Sample.phone
                           Sample.ten_scans)) = false /\
  snd (submitScan CONFIG Sample.env_lose Sample.token Sample.phone
                  Sample.ten_scans) = Sample.ten_scans.
Proof.
  split; [reflexivity|].
  exact (failure_leaves_storage CONFIG Sample.env_lose Sample.token
           Sample.phone Sample.ten_scans eq_refl).
Defined.



End Instances.

(** * More on the parser *)

Section PatternShapes.

Lemma lit_length (ic : bool) (p : string) :
  forall s s', In s' (RegExp.lit ic p s) ->
               String.length s = (String.length p + String.length s')%nat.
Proof.
  induction p as [|a p IH]; intros s s' Hin; simpl in Hin.
  - destruct Hin as [<-|[]]. reflexivity.
  - destruct s as [|b s]; [destruct Hin|].
    destruct (Ascii.eqb _ _); [|destruct Hin].
    simpl. now rewrite (IH _ _ Hin).
Qed.

Lemma iter_length (f : string -> list string) (w : nat) :
  (forall s s', In s' (f s) -> String.length s = (w + String.length s')%nat) ->
  forall n s s',
    In s' (Nat.iter n (flat_map f) [s]) ->
    String.length s = (n * w + String.length s')%nat.
Proof.
  intros Hf. induction n as [|n IH]; intros s s' Hin; simpl in Hin.
  - destruct Hin as [<-|[]]. reflexivity.
  - apply in_flat_map in Hin as (t & Ht & Hs').
    rewrite (IH _ _ Ht), (Hf _ _ Hs'). simpl. lia.
Qed.

(** A pattern of fixed width consumes that many characters, however it
    matches. *)
Lemma residues_length (ic : bool) (r : RegExp.re) :
  forall w s s',
    re_width r = Some w ->
    In s' (RegExp.residues ic r s) ->
    String.length s = (w + String.length s')%nat.
Proof.
  induction r as [p|p|r1 IH1 r2 IH2|r1 IH1 r2 IH2|r1 IH1|n r1 IH1|];
    intros w s s' Hw Hin; simpl in Hw, Hin.
  - injection Hw as <-. now apply (lit_length ic).
  - injection Hw as <-. destruct s as [|c s]; [destruct Hin|].
    destruct (_ || _); [|destruct Hin]. destruct Hin as [<-|[]]. reflexivity.
  - destruct (re_width r1) as [a|]; [|discriminate].
    destruct (re_width r2) as [b|]; [|discriminate].
    injection Hw as <-.
    apply in_flat_map in Hin as (t & Ht & Hs').
    rewrite (IH1 a _ _ eq_refl Ht), (IH2 b _ _ eq_refl Hs'). lia.
  - destruct (re_width r1) as [a|]; [|discriminate].
    destruct (re_width r2) as [b|]; [|discriminate].
    destruct (Nat.eqb_spec a b) as [->|]; [|discriminate].
    injection Hw as <-.
    apply in_app_or in Hin as [Hin|Hin]; [now apply IH1 | now apply IH2].
  - discriminate.
  - destruct (re_width r1) as [a|]; [|discriminate].
    injection Hw as <-.
    apply (iter_length (RegExp.residues ic r1) a); [|exact Hin].
    intros t t'. now apply IH1.
  - injection Hw as <-. destruct s; [|destruct Hin].
    destruct Hin as [<-|[]]. reflexivity.
Qed.

(** After a pattern that ends with [$] nothing of the input is left. *)
Lemma residues_anchored (ic : bool) (r : RegExp.re) :
  forall s s',
    re_anchored r = true ->
    In s' (RegExp.residues ic r s) -> s' = "".
Proof.
  induction r as [p|p|r1 IH1 r2 IH2|r1 IH1 r2 IH2|r1 IH1|n r1 IH1|];
    intros s s' Ha Hin; simpl in Ha; try discriminate.
  - simpl in Hin. apply in_flat_map in Hin as (t & Ht & Hs').
    apply orb_true_iff in Ha as [Ha|Ha]; [now apply (IH2 t)|].
    apply andb_true_iff in Ha as [Ha1 Ha2].
    destruct r2 as [[|? ?]| | | | | |]; try discriminate.
    apply (IH1 _ _ Ha1) in Ht. subst t. simpl in Hs'.
    destruct Hs' as [<-|[]]. reflexivity.
  - simpl in Hin. destruct s; [|destruct Hin].
    destruct Hin as [<-|[]]. reflexivity.
Qed.

(** Every string that a pattern of fixed width, anchored at both ends,
    accepts has that width. *)
Lemma test_length (p : RegExp.t) (w : nat) (s : string) :
  re_width (RegExp.source p) = Some w ->
  re_anchored (RegExp.source p) = true ->
  RegExp.test p s = true ->
  String.length s = w.
Proof.
  intros Hw Ha Ht. unfold RegExp.test in Ht.
  destruct (RegExp.residues _ _ s) as [|s' rest] eqn:E; [discriminate|].
  assert (Hin : In s' (RegExp.residues (RegExp.ignoreCase p) (RegExp.source p) s)).
  { rewrite E. now left. }
  rewrite (residues_length _ _ _ _ _ Hw Hin).
  rewrite (residues_anchored _ _ _ _ Ha Hin). simpl. lia.
Qed.

End PatternShapes.

Section ParserExtras.
Import QRParser.

Lemma lit_exact (p : string) :
  forall s s', In s' (RegExp.lit false p s) -> s = p ++ s'.
Proof.
  induction p as [|a p IH]; intros s s' Hin; simpl in Hin.
  - destruct Hin as [<-|[]]. reflexivity.
  - destruct s as [|b s]; [destruct Hin|].
    unfold RegExp.canon in Hin. simpl in Hin.
    destruct (Ascii.eqb_spec a b) as [<-|]; [|destruct Hin].
    simpl. now rewrite (IH _ _ Hin).
Qed.

(** X2: a string that passes the simple-token pattern has exactly 27
    characters and starts with [GRA-VAT-]: the pattern is anchored at both
    ends, so a token with anything before or after it is not a token. *)
Theorem simple_token_shape (s : string) :
  isV1Format s = true ->
  String.length s = 27%nat /\ exists rest, s = "GRA-VAT-" ++ rest.
Proof.
  intros E. split.
  - exact (test_length v1Pattern 27 s eq_refl eq_refl E).
  - unfold isV1Format, RegExp.test in E.
    destruct (RegExp.residues _ _ s) as [|s' more] eqn:R; [discriminate|].
    assert (Hin : In s' (RegExp.residues false (RegExp.source v1Pattern) s)).
    { unfold v1Pattern at 1 in R. simpl RegExp.ignoreCase in R.
      rewrite R. now left. }
    unfold v1Pattern, RegExp.seq in Hin. simpl RegExp.source in Hin.
    simpl fold_right in Hin. simpl RegExp.residues in Hin.
    apply in_flat_map in Hin as (rest & Hrest & _).
    exists rest. exact (lit_exact "GRA-VAT-" s rest Hrest).
Qed.

Context `{Host}.

(** X1: [parse] keeps the scanned text in [raw], and tags it [v1] exactly
    for the simple tokens, [v2] exactly for the strings with the URL prefix
    and [unknown], the only tag with [valid] false, for the rest; the order
    in which it tries the two patterns decides nothing. *)
Theorem parse_classifies (qrContent : string) :
  raw (parse qrContent) = qrContent /\
  (version (parse qrContent) = v1 <-> isV1Format qrContent = true) /\
  (version (parse qrContent) = v2 <-> isV2Format qrContent = true) /\
  (version (parse qrContent) = unknown <-> valid (parse qrContent) = false).
Proof.
  destruct (isV2Format qrContent) eqn:E2.
  - pose proof (formats_disjoint _ E2) as E1.
    rewrite (parse_v2 _ E2), E1. simpl.
    repeat split; intros; congruence.
  - destruct (isV1Format qrContent) eqn:E1.
    + rewrite (parse_v1 _ E1). simpl. repeat split; intros; congruence.
    + rewrite (parse_unknown _ E2 E1). simpl.
      repeat split; intros; congruence.
Qed.

End ParserExtras.

Section TimestampFormat.
Import QRParser.

Ltac explode s H :=
  repeat (destruct s as [|? s]; simpl in H; try discriminate H).

(** X3: a compact timestamp of 14 or more characters is cut at fixed
    positions, 4-2-2-2-2-2, whatever the characters are, and anything after
    the 14th is dropped; a shorter one, an empty one or none at all reads
    [Unknown]. *)
Theorem formatTimestamp_pieces (year month day hour min sec rest short : string) :
  String.length year = 4%nat -> String.length month = 2%nat ->
  String.length day = 2%nat -> String.length hour = 2%nat ->
  String.length min = 2%nat -> String.length sec = 2%nat ->
  (String.length short < 14)%nat ->
  formatTimestamp (Some (year ++ month ++ day ++ hour ++ min ++ sec ++ rest)) =
    year ++ "/" ++ month ++ "/" ++ day ++ " " ++ hour ++ ":" ++ min ++ ":" ++ sec /\
  formatTimestamp (Some short) = "Unknown" /\
  formatTimestamp None = "Unknown".
Proof.
  intros Hy Hmo Hd Hh Hmi Hs Hshort. split; [|split; [|reflexivity]].
  - explode year Hy. explode month Hmo. explode day Hd.
    explode hour Hh. explode min Hmi. explode sec Hs.
    cbn. destruct rest; reflexivity.
  - unfold formatTimestamp. apply Nat.ltb_lt in Hshort. rewrite Hshort.
    now rewrite orb_true_r.
Qed.

End TimestampFormat.

(** * More on the digest *)

Section DigestExtras.

Lemma ToInt32_offset (z : Z) : exists k, ToInt32 z = z + k * 2 ^ 32.
Proof.
  unfold ToInt32.
  pose proof (Z.div_mod z (2 ^ 32) ltac:(lia)) as D.
  destruct (2 ^ 31 <=? z mod 2 ^ 32).
  - exists (- (z / 2 ^ 32) - 1). lia.
  - exists (- (z / 2 ^ 32)). lia.
Qed.

Lemma ToInt32_shift (z k : Z) : ToInt32 (z + k * 2 ^ 32) = ToInt32 z.
Proof. unfold ToInt32. now rewrite Z_mod_plus_full. Qed.

(** One round of the loop multiplies by 31 and adds the character code,
    in 32-bit arithmetic: [(hash << 5) - hash] is [31 * hash]. *)
Lemma hash_step_31 (h c : Z) : hash_step h c = ToInt32 (31 * h + c).
Proof.
  unfold hash_step. rewrite Z.land_diag, Z.shiftl_mul_pow2 by lia.
  destruct (ToInt32_offset h) as [k1 E1]. rewrite E1.
  destruct (ToInt32_offset ((h + k1 * 2 ^ 32) * 2 ^ 5)) as [k2 E2]. rewrite E2.
  set (x := (h + k1 * 2 ^ 32) * 2 ^ 5 + k2 * 2 ^ 32 - h + c).
  destruct (ToInt32_offset x) as [k3 E3]. rewrite E3, ToInt32_shift.
  replace x with (31 * h + c + (32 * k1 + k2) * 2 ^ 32) by (unfold x; lia).
  apply ToInt32_shift.
Qed.

Lemma hash_fold_31 (codes : list Z) :
  forall a,
    fold_left hash_step codes (ToInt32 a) =
    ToInt32 (fold_left (fun h c => 31 * h + c) codes a).
Proof.
  induction codes as [|c codes IH]; intros a; simpl; [reflexivity|].
  rewrite hash_step_31.
  destruct (ToInt32_offset a) as [k E]. rewrite E.
  replace (31 * (a + k * 2 ^ 32) + c) with (31 * a + c + (31 * k) * 2 ^ 32) by lia.
  rewrite ToInt32_shift. apply IH.
Qed.

(** X4: the number behind the digest is the polynomial in 31 of the
    character codes, reduced to a signed 32-bit integer: the loop is the
    usual 31-multiplier string hash. *)
Theorem hash_is_poly31 (codes : list Z) :
  hash_loop codes = ToInt32 (poly31 codes).
Proof.
  unfold hash_loop, poly31. change 0 with (ToInt32 0) at 1. apply hash_fold_31.
Qed.

Lemma hex_digits_short (k : nat) :
  forall fuel n acc,
    0 <= n < 16 ^ Z.of_nat (S k) ->
    (String.length (hex_digits fuel n acc) <= S k + String.length acc)%nat.
Proof.
  induction k as [|k IH]; intros fuel n acc Hn;
    (destruct fuel as [|fuel]; simpl hex_digits; [lia|]).
  - assert (E : n / 16 = 0) by (apply Z.div_small; simpl in Hn; lia).
    rewrite E. simpl. lia.
  - destruct (n / 16 =? 0); [simpl; lia|].
    assert (Hq : 0 <= n / 16 < 16 ^ Z.of_nat (S k)).
    { split; [apply Z.div_pos; lia|].
      apply Z.div_lt_upper_bound; [lia|].
      replace (Z.of_nat (S (S k))) with (1 + Z.of_nat (S k)) in Hn by lia.
      rewrite Z.pow_add_r in Hn by lia. lia. }
    specialize (IH fuel (n / 16) (String (hex_digit (n mod 16)) acc) Hq).
    simpl String.length in IH. lia.
Qed.

Lemma toString16_short (n : Z) :
  0 <= n <= 2 ^ 31 -> (1 <= String.length (toString16 n) <= 8)%nat.
Proof.
  intros Hn. split; [apply hex_digits_nonempty|].
  unfold toString16.
  pose proof (hex_digits_short 7 (S (Z.to_nat (Z.log2 n))) n "") as B.
  simpl String.length in B. rewrite Nat.add_0_r in B. apply B.
  change (16 ^ Z.of_nat 8) with (2 ^ 32). lia.
Qed.

Lemma substring_zeros (n m : nat) (t : string) :
  (n <= m)%nat ->
  String.substring 0 n (Str.repeat "0" m ++ t) = Str.repeat "0" n.
Proof.
  revert m. induction n as [|n IH]; intros m Hnm.
  - destruct (Str.repeat "0" m ++ t); reflexivity.
  - destruct m as [|m]; [lia|]. simpl. rewrite IH by lia. reflexivity.
Qed.

(** The digest is the hexadecimal text of the 32-bit number, at most 8
    digits, behind zeros. *)
Lemma generateHash_form (input : string) :
  exists hex,
    (1 <= String.length hex <= 8)%nat /\
    _generateHash input = Str.repeat "0" (64 - String.length hex) ++ hex.
Proof.
  unfold _generateHash.
  set (hash := hash_loop _).
  pose proof (hash_loop_range (map Str.charCode (Str.chars input))) as R.
  fold hash in R.
  pose proof (toString16_short (Z.abs hash) ltac:(lia)) as L.
  exists (toString16 (Z.abs hash)). split; [exact L|].
  set (hex := toString16 (Z.abs hash)) in *.
  set (padded := Str.repeat "0" (64 - String.length hex) ++ hex).
  assert (Len : String.length padded = 64%nat).
  { unfold padded. rewrite string_length_app, length_repeat_char. lia. }
  unfold Str.substring. rewrite Nat.sub_0_r, <- Len. apply substring_all.
Qed.

(** X5: the first 56 of the 64 characters of every digest are zeros; the
    input only shows in the last 8. *)
Theorem generateHash_leading_zeros (input : string) :
  Str.substring 0 56 (_generateHash input) = Str.repeat "0" 56.
Proof.
  destruct (generateHash_form input) as (hex & L & ->).
  unfold Str.substring. rewrite Nat.sub_0_r. apply substring_zeros. lia.
Qed.

Lemma hash_of_app (a b : string) :
  hash_loop (map Str.charCode (Str.chars (a ++ b))) =
  fold_left hash_step (map Str.charCode (Str.chars b))
            (hash_loop (map Str.charCode (Str.chars a))).
Proof.
  unfold hash_loop. now rewrite chars_app, map_app, fold_left_app.
Qed.

Lemma fold_two_chars {A : Type} (f : A -> Z -> A) (x y : ascii) (s : string) (h : A) :
  fold_left f (map Str.charCode (Str.chars (String x (String y s)))) h =
  fold_left f (map Str.charCode (Str.chars s))
            (f (f h (Str.charCode x)) (Str.charCode y)).
Proof. reflexivity. Qed.

Lemma hash_two_steps (h x y : Z) :
  hash_step (hash_step h x) y = ToInt32 (961 * h + (31 * x + y)).
Proof.
  rewrite !hash_step_31.
  destruct (ToInt32_offset (31 * h + x)) as [k Ek]. rewrite Ek.
  replace (31 * (31 * h + x + k * 2 ^ 32) + y)
    with (961 * h + (31 * x + y) + (31 * k) * 2 ^ 32) by lia.
  apply ToInt32_shift.
Qed.

(** X6: two adjacent characters can be traded for two others with the same
    value of 31 * first + second, anywhere in any input, and the digest
    stays the same. *)
Theorem generateHash_trade (before after : string) (a b a' b' : ascii) :
  31 * Str.charCode a + Str.charCode b = 31 * Str.charCode a' + Str.charCode b' ->
  _generateHash (before ++ String a (String b after)) =
  _generateHash (before ++ String a' (String b' after)).
Proof.
  intros E. unfold _generateHash.
  rewrite !hash_of_app, !fold_two_chars, !hash_two_steps, E. reflexivity.
Qed.


End DigestExtras.

(** * More on the draw *)

Section DrawExtras.
Variable cfg : Config.

Lemma walk_in_table (r2 : Q) (entries : list (string * Z)) :
  forall acc prize,
    walk entries r2 acc = Some prize -> In prize (map fst entries).
Proof.
  induction entries as [|[l s] rest IH]; intros acc prize; simpl; [discriminate|].
  destruct (Qltb r2 (inject_Z (acc + s))).
  - intros E. injection E as <-. now left.
  - intros E. right. exact (IH _ _ E).
Qed.

(** X8: with a prize table that is not empty, the prize tier is always one
    of the labels of the table: the draw never comes back undefined and
    never invents a label. *)
Theorem determinePrize_in_table (r2 : Q) :
  PRIZES cfg <> [] ->
  exists label,
    _determinePrize cfg r2 = Some label /\ In label (map fst (PRIZES cfg)).
Proof.
  intros Hne. unfold _determinePrize.
  destruct (walk (PRIZES cfg) r2 0) as [prize|] eqn:W.
  - exists prize. split; [reflexivity | exact (walk_in_table _ _ _ _ W)].
  - destruct (PRIZES cfg) as [|[l s] rest]; [contradiction|].
    exists l. split; [reflexivity | now left].
Qed.

Lemma first_exceeding_exists (r2 : Q) (entries : list (string * Z)) :
  forall acc,
    ~ (r2 < inject_Z acc)%Q ->
    (r2 < inject_Z (acc + fold_right Z.add 0%Z (map snd entries)))%Q ->
    exists i label share,
      nth_error entries i = Some (label, share) /\
      (r2 < inject_Z (acc + cumulative_share entries i))%Q /\
      forall j, (j < i)%nat ->
                ~ (r2 < inject_Z (acc + cumulative_share entries j))%Q.
Proof.
  induction entries as [|[l s] rest IH]; intros acc Hacc Htot; simpl in Htot.
  - rewrite Z.add_0_r in Htot. contradiction.
  - destruct (Qltb r2 (inject_Z (acc + s))) eqn:E.
    + apply Qltb_lt in E. exists 0%nat, l, s.
      split; [reflexivity|]. rewrite cumulative_share_0.
      split; [exact E|]. intros j Hj. lia.
    + apply Qltb_nlt in E.
      rewrite Z.add_assoc in Htot.
      destruct (IH (acc + s) E Htot) as (i & label & share & Hnth & Hlt & Hmin).
      exists (S i), label, share. split; [exact Hnth|].
      rewrite cumulative_share_S, Z.add_assoc. split; [exact Hlt|].
      intros [|j] Hj.
      * now rewrite cumulative_share_0.
      * rewrite cumulative_share_S, Z.add_assoc. apply Hmin. lia.
Qed.

(** X9: for a draw from 0 up that stays below the sum of the shares, some
    tier's cumulative share exceeds it and the first such tier is the prize:
    the fallback to the first tier is not what decides.  With shares that
    sum to 100 this is every draw the code makes. *)
Theorem determinePrize_by_walk (r2 : Q) :
  (0 <= r2)%Q ->
  (r2 < inject_Z (fold_right Z.add 0%Z (map snd (PRIZES cfg))))%Q ->
  exists i label share,
    nth_error (PRIZES cfg) i = Some (label, share) /\
    first_exceeding (PRIZES cfg) r2 i /\
    _determinePrize cfg r2 = Some label.
Proof.
  intros H0 Htot.
  destruct (first_exceeding_exists r2 (PRIZES cfg) 0) as
    (i & label & share & Hnth & Hlt & Hmin).
  - intros L. exact (Qlt_not_le _ _ L H0).
  - exact Htot.
  - exists i, label, share. split; [exact Hnth|].
    assert (Hfirst : first_exceeding (PRIZES cfg) r2 i) by (split; assumption).
    split; [exact Hfirst|].
    exact (determinePrize_first cfg r2 i label share Hnth Hfirst).
Qed.

End DrawExtras.

(** * The generators *)

Section GeneratorExtras.





Lemma append_assoc (a b c : string) : (a ++ b) ++ c = a ++ (b ++ c).
Proof. induction a as [|x a IH]; simpl; [reflexivity | now rewrite IH]. Qed.



















End GeneratorExtras.

(** * Generated URLs through the parser *)

Section UrlRoundTrip.

Lemma all_chars_impl (p q : ascii -> bool) (s : string) :
  (forall c, p c = true -> q c = true) ->
  all_chars p s = true -> all_chars q s = true.
Proof.
  intros Hpq. unfold all_chars. rewrite !forallb_forall. auto.
Qed.















Lemma safe_from (q : ascii -> bool) (s : string) :
  (forall c, is_safe_char c = true -> q c = true) ->
  all_chars is_safe_char s = true -> all_chars q s = true.
Proof. apply all_chars_impl. Qed.











End UrlRoundTrip.

(** * The store over a run of scans *)

Section LedgerExtras.
Variable cfg : Config.

(** The scan that [_demoScan] hands to [_storeScan]. *)
Lemma scan_step (env : Env) (qrCode phone : string) (st : Storage) :
  snd (submitScan cfg env qrCode phone st) = st \/
  exists outcome prize,
    snd (submitScan cfg env qrCode phone st) =
      _storeScan st {| Scan.qrCode := qrCode;
                       Scan.phone := phone;
                       Scan.timestamp := clock env;
                       Scan.result := outcome;
                       Scan.prize := prize;
                       Scan.transactionHash :=
                         commit qrCode phone (iso (clock env)) (seed env);
                       Scan.randomSeed := seed env |} /\
    success (fst (submitScan cfg env qrCode phone st)) = true /\
    (outcome = WIN -> prize = _determinePrize cfg (prizeRandom env)) /\
    (outcome = LOSE -> prize = None).
Proof.
  assert (D : forall timestamp, timestamp = clock env ->
    snd (_demoScan cfg env qrCode phone timestamp st) = st \/
    exists outcome prize,
      snd (_demoScan cfg env qrCode phone timestamp st) =
        _storeScan st {| Scan.qrCode := qrCode;
                         Scan.phone := phone;
                         Scan.timestamp := clock env;
                         Scan.result := outcome;
                         Scan.prize := prize;
                         Scan.transactionHash :=
                           commit qrCode phone (iso (clock env)) (seed env);
                         Scan.randomSeed := seed env |} /\
      success (fst (_demoScan cfg env qrCode phone timestamp st)) = true /\
      (outcome = WIN -> prize = _determinePrize cfg (prizeRandom env)) /\
      (outcome = LOSE -> prize = None)).
  { intros timestamp ->. unfold _demoScan. rewrite includes_objects.
    destruct (RegExp.test (QR_PATTERN cfg) qrCode); simpl; [|now left].
    destruct (MAX_SCANS_PER_HOUR cfg <=? _); simpl; [now left|].
    right.
    destruct (Qltb (random env) (inject_Z (WIN_PERCENTAGE cfg))).
    - exists WIN, (_determinePrize cfg (prizeRandom env)).
      repeat split; congruence.
    - exists LOSE, None. repeat split; congruence. }
  unfold submitScan.
  destruct (DEMO_MODE cfg || negb (isN8nConfigured cfg)); [now apply D|].
  destruct (remote env); [now left | now apply D].
Qed.

Lemma store_history (st : Storage) (scan : Scan.t) :
  SCAN_HISTORY (_storeScan st scan) =
  (SCAN_HISTORY st ++
   [ {| Entry.qrCode := Scan.qrCode scan; Entry.phone := Scan.phone scan;
        Entry.timestamp := Scan.timestamp scan; Entry.result := Scan.result scan;
        Entry.prize := Scan.prize scan |} ])%list.
Proof. reflexivity. Qed.

Lemma store_codes (st : Storage) (scan : Scan.t) :
  scanned_codes (_storeScan st scan) = (scanned_codes st ++ [Scan.qrCode scan])%list.
Proof. reflexivity. Qed.

Lemma store_audit (st : Storage) (scan : Scan.t) :
  AUDIT_LOG (_storeScan st scan) =
  if Outcome_eqb (Scan.result scan) WIN
  then {| Audit.timestamp := Scan.timestamp scan; Audit.phone := Scan.phone scan;
          Audit.qrCode := Scan.qrCode scan; Audit.prize := Scan.prize scan;
          Audit.transactionHash := Scan.transactionHash scan;
          Audit.randomSeed := Scan.randomSeed scan |} :: AUDIT_LOG st
  else AUDIT_LOG st.
Proof. reflexivity. Qed.

Lemma store_leaderboard (st : Storage) (scan : Scan.t) :
  LEADERBOARD (_storeScan st scan) =
  bump (Scan.phone scan) (Outcome_eqb (Scan.result scan) WIN) (LEADERBOARD st).
Proof. reflexivity. Qed.

(** X15: a call of [submitScan] never removes or rewrites a recorded
    redemption: the history after the call is the history before it,
    followed by at most one entry, and that entry is for the submitted code
    and participant at the submitted time. *)
Theorem history_append_only (env : Env) (qrCode phone : string) (st : Storage) :
  exists added,
    SCAN_HISTORY (snd (submitScan cfg env qrCode phone st)) =
      (SCAN_HISTORY st ++ added)%list /\
    (List.length added <= 1)%nat /\
    Forall (fun e => Entry.qrCode e = qrCode /\ Entry.phone e = phone /\
                     Entry.timestamp e = clock env) added /\
    (success (fst (submitScan cfg env qrCode phone st)) = false -> added = []).
Proof.
  destruct (scan_step env qrCode phone st) as [E|(outcome & prize & E & Hok & _)].
  - exists []. rewrite E, app_nil_r. repeat split; auto.
  - eexists [_]. rewrite E, store_history. simpl.
    repeat split; auto. congruence.
Qed.

(** X16: in every store the code reaches, the list under [scanned_codes]
    is the list of the codes of the history, entry by entry: the list that
    no code reads holds what the duplicate check would have needed. *)
Theorem scanned_codes_mirror (st : Storage) :
  reachable cfg st ->
  scanned_codes st = map Entry.qrCode (SCAN_HISTORY st).
Proof.
  induction 1 as [|env qrCode phone st _ IH]; [reflexivity|].
  destruct (scan_step env qrCode phone st) as [->|(outcome & prize & -> & _)];
    [exact IH|].
  rewrite store_codes, store_history, map_app, IH. reflexivity.
Qed.

Lemma filter_snoc {A : Type} (f : A -> bool) (l : list A) (x : A) :
  filter f (l ++ [x]) = (filter f l ++ if f x then [x] else [])%list.
Proof. rewrite filter_app. simpl. now destruct (f x). Qed.

Lemma audit_fields_inv (st : Storage) :
  reachable cfg st ->
  map audit_fields (AUDIT_LOG st) =
  rev (map entry_fields (filter is_win (SCAN_HISTORY st))).
Proof.
  induction 1 as [|env qrCode phone st _ IH]; [reflexivity|].
  destruct (scan_step env qrCode phone st) as [->|(outcome & prize & -> & _)];
    [exact IH|].
  rewrite store_audit, store_history, filter_snoc. unfold is_win at 2.
  simpl Entry.result. simpl Scan.result.
  destruct (Outcome_eqb outcome WIN).
  - rewrite map_app, rev_app_distr. simpl. now rewrite IH.
  - now rewrite app_nil_r.
Qed.

(** X17: in every store the code reaches, the audit log is the winning
    entries of the history and nothing else, the last recorded first, each
    with the code, participant, time and prize of its history entry. *)
Theorem audit_log_is_wins (st : Storage) :
  reachable cfg st ->
  map audit_fields (AUDIT_LOG st) =
  rev (map entry_fields (filter is_win (SCAN_HISTORY st))).
Proof. exact (audit_fields_inv st). Qed.

(** X18: in every store the code reaches, the transaction hash of each
    audit entry is the commitment of that entry's own code, participant,
    timestamp text and seed: it can be recomputed from the entry. *)
Theorem audit_hash_recomputable (st : Storage) :
  reachable cfg st ->
  Forall (fun a => Audit.transactionHash a =
                   commit (Audit.qrCode a) (Audit.phone a)
                          (iso (Audit.timestamp a)) (Audit.randomSeed a))
         (AUDIT_LOG st).
Proof.
  induction 1 as [|env qrCode phone st _ IH]; [constructor|].
  destruct (scan_step env qrCode phone st) as [->|(outcome & prize & -> & _)];
    [exact IH|].
  rewrite store_audit. simpl.
  destruct (Outcome_eqb outcome WIN); [|exact IH].
  constructor; [reflexivity | exact IH].
Qed.

Lemma bump_find_other (p q : string) (w : bool) (lb : list User.t) :
  q <> p ->
  find (has_phone q) (bump p w lb) = find (has_phone q) lb.
Proof.
  intros Hne. induction lb as [|u lb IH]; simpl.
  - unfold has_phone. simpl. destruct (String.eqb_spec p q); congruence.
  - destruct (String.eqb_spec (User.phone u) p) as [Ep|Ep]; simpl.
    + unfold has_phone. simpl.
      destruct (String.eqb_spec (User.phone u) q); congruence.
    + destruct (has_phone q u); [reflexivity | exact IH].
Qed.

Lemma bump_find_same (p : string) (w : bool) (lb : list User.t) :
  find (has_phone p) (bump p w lb) =
  Some match find (has_phone p) lb with
       | Some u => {| User.phone := User.phone u;
                      User.scans := User.scans u + 1;
                      User.wins := if w then User.wins u + 1 else User.wins u |}
       | None => {| User.phone := p; User.scans := 1;
                    User.wins := if w then 1 else 0 |}
       end.
Proof.
  induction lb as [|u lb IH]; simpl.
  - unfold has_phone. simpl. rewrite String.eqb_refl. now destruct w.
  - unfold has_phone at 2. 
    destruct (String.eqb_spec (User.phone u) p) as [Ep|Ep]; simpl.
    + unfold has_phone. simpl. apply String.eqb_eq in Ep. now rewrite Ep.
    + unfold has_phone at 1. apply String.eqb_neq in Ep. rewrite Ep. exact IH.
Qed.

Lemma bump_phones (p : string) (w : bool) (lb : list User.t) :
  map User.phone (bump p w lb) =
  if existsb (has_phone p) lb then map User.phone lb
  else (map User.phone lb ++ [p])%list.
Proof.
  induction lb as [|u lb IH]; simpl; [reflexivity|].
  unfold has_phone in *.
  destruct (String.eqb (User.phone u) p); simpl; [reflexivity|].
  rewrite IH. now destruct (existsb _ lb).
Qed.

Lemma stats_after_store (st : Storage) (scan : Scan.t) (q : string) :
  _getUserStats (_storeScan st scan) q =
  if String.eqb (Scan.phone scan) q
  then {| totalScans := S (totalScans (_getUserStats st q));
          totalWins := totalWins (_getUserStats st q) +
                       (if Outcome_eqb (Scan.result scan) WIN then 1 else 0) |}
  else _getUserStats st q.
Proof.
  unfold _getUserStats. rewrite store_history. rewrite filter_snoc.
  simpl Entry.phone. destruct (String.eqb (Scan.phone scan) q).
  - rewrite filter_snoc, !length_app. simpl Entry.result.
    destruct (Outcome_eqb (Scan.result scan) WIN); simpl; f_equal; lia.
  - now rewrite app_nil_r.
Qed.

Lemma wins_le_scans (st : Storage) (q : string) :
  (totalWins (_getUserStats st q) <= totalScans (_getUserStats st q))%nat.
Proof. unfold _getUserStats. simpl. apply filter_length_le. Qed.

(** X19: in every store the code reaches, the stored leaderboard has one
    entry per participant who has scanned and none for anyone else, and
    the entry carries exactly the participant's number of scans and of wins
    in the history. *)
Theorem leaderboard_agrees_with_history (st : Storage) :
  reachable cfg st ->
  NoDup (map User.phone (LEADERBOARD st)) /\
  forall phone,
    find (has_phone phone) (LEADERBOARD st) =
    if (totalScans (_getUserStats st phone) =? 0)%nat then None
    else Some {| User.phone := phone;
                 User.scans := Z.of_nat (totalScans (_getUserStats st phone));
                 User.wins := Z.of_nat (totalWins (_getUserStats st phone)) |}.
Proof.
  induction 1 as [|env qrCode phone st _ [IHnd IH]].
  - split; [constructor | reflexivity].
  - destruct (scan_step env qrCode phone st) as [->|(outcome & prize & -> & _)];
      [now split|].
    rewrite store_leaderboard. simpl Scan.phone. simpl Scan.result. split.
    + rewrite bump_phones.
      destruct (existsb (has_phone phone) (LEADERBOARD st)) eqn:Ex; [exact IHnd|].
      apply NoDup_app; [exact IHnd | repeat constructor; intros [] |].
      intros q Hq [<-|[]].
      apply in_map_iff in Hq as (u & Hu & Hin).
      assert (Hex : existsb (has_phone phone) (LEADERBOARD st) = true).
      { apply existsb_exists. exists u. split; [exact Hin|].
        now apply String.eqb_eq. }
      congruence.
    + intros q. rewrite stats_after_store. simpl Scan.phone. simpl Scan.result.
      destruct (String.eqb_spec phone q) as [<-|Hne].
      * rewrite bump_find_same, IH.
        pose proof (wins_le_scans st phone) as Hle.
        destruct (_getUserStats st phone) as [n m].
        cbn [totalScans totalWins] in *.
        destruct n as [|n]; cbn [Nat.eqb User.phone User.scans User.wins].
        -- assert (m = 0%nat) as -> by lia.
           now destruct (Outcome_eqb outcome WIN).
        -- f_equal. f_equal; [lia|].
           destruct (Outcome_eqb outcome WIN); lia.
      * rewrite bump_find_other by congruence. apply IH.
Qed.

(** X20: a scan that goes through reports the participant's totals with
    the new entry counted: one scan more than the history held before, and
    one win more exactly when the outcome is WIN. *)
Theorem success_totals (env : Env) (qrCode phone : string) (timestamp : Timestamp)
        (st st' : Storage) outcome prize hash message scans wins :
  _demoScan cfg env qrCode phone timestamp st =
    (Success outcome prize hash message scans wins, st') ->
  scans = S (totalScans (_getUserStats st phone)) /\
  wins = (totalWins (_getUserStats st phone) +
          (if Outcome_eqb outcome WIN then 1 else 0))%nat /\
  totalScans (_getUserStats st' phone) = scans /\
  totalWins (_getUserStats st' phone) = wins.
Proof.
  unfold _demoScan. rewrite includes_objects.
  destruct (RegExp.test (QR_PATTERN cfg) qrCode); cbn [negb]; [|discriminate].
  cbv zeta.
  destruct (MAX_SCANS_PER_HOUR cfg <=? _); [discriminate|].
  remember (_storeScan st _) as stored eqn:Hst.
  remember (_getUserStats stored phone) as stats eqn:Hstats.
  intros E. injection E as Eo _ _ _ Es Ew Est.
  subst st' scans wins.
  rewrite <- Hstats. rewrite Hst, stats_after_store in Hstats.
  cbn [Scan.phone Scan.result] in Hstats. rewrite String.eqb_refl in Hstats.
  rewrite Hstats. cbn [totalScans totalWins]. rewrite <- Eo.
  destruct (Qltb (random env) (inject_Z (WIN_PERCENTAGE cfg))); auto.
Qed.

Lemma recent_after_store (st : Storage) (scan : Scan.t) (now : Z) (q : string) :
  Scan.phone scan <> q ->
  _getRecentScans (_storeScan st scan) now q = _getRecentScans st now q.
Proof.
  intros Hne. unfold _getRecentScans. rewrite store_history, filter_snoc.
  simpl Entry.phone. apply String.eqb_neq in Hne. rewrite Hne. simpl.
  now rewrite app_nil_r.
Qed.

(** X21: a scan by one participant leaves every other participant as they
    were: their totals, their count for the rate limit at any time, and
    their entry in the stored leaderboard. *)
Theorem scan_leaves_others (env : Env) (qrCode phone other : string)
        (now : Z) (st : Storage) :
  other <> phone ->
  let st' := snd (submitScan cfg env qrCode phone st) in
  _getUserStats st' other = _getUserStats st other /\
  _getRecentScans st' now other = _getRecentScans st now other /\
  find (has_phone other) (LEADERBOARD st') = find (has_phone other) (LEADERBOARD st).
Proof.
  intros Hne st'. unfold st'.
  destruct (scan_step env qrCode phone st) as [->|(outcome & prize & -> & _)];
    [auto|].
  rewrite stats_after_store, recent_after_store, store_leaderboard by (simpl; congruence).
  simpl Scan.phone. apply not_eq_sym, String.eqb_neq in Hne as Hb. rewrite Hb.
  rewrite bump_find_other by congruence. auto.
Qed.

Lemma determinePrize_defined (r2 : Q) :
  PRIZES cfg <> [] -> _determinePrize cfg r2 <> None.
Proof.
  intros Hne. unfold _determinePrize.
  destruct (walk (PRIZES cfg) r2 0); [discriminate|].
  destruct (PRIZES cfg); [contradiction | discriminate].
Qed.

Lemma audit_prizes_inv (st : Storage) :
  reachable cfg st -> PRIZES cfg <> [] ->
  Forall (fun a => Audit.prize a <> None) (AUDIT_LOG st).
Proof.
  intros Hreach Hne.
  induction Hreach as [|env qrCode phone st _ IH]; [constructor|].
  destruct (scan_step env qrCode phone st)
    as [->|(outcome & prize & -> & _ & Hwin & _)]; [exact IH|].
  rewrite store_audit. simpl.
  destruct outcome; simpl; [|exact IH].
  constructor; [|exact IH]. simpl. rewrite (Hwin eq_refl).
  now apply determinePrize_defined.
Qed.

Lemma digits_value_nonneg (s : string) :
  forall acc, 0 <= acc -> 0 <= digits_value s acc.
Proof.
  induction s as [|c s IH]; intros acc Hacc; cbn [digits_value]; [exact Hacc|].
  destruct (RegExp.is_digit c) eqn:D; [|exact Hacc].
  apply IH. unfold Str.charCode.
  cbv beta zeta delta [RegExp.is_digit] in D.
  apply andb_true_iff in D as [D1 D2]. apply Nat.leb_le in D1.
  lia.
Qed.

Lemma payouts_defined (log : list Audit.t) :
  Forall (fun a => Audit.prize a <> None) log ->
  forall sum, 0 <= sum ->
    exists total, fold_left add_payout log (Normal sum) = Normal total /\ 0 <= total.
Proof.
  induction 1 as [|a log Ha _ IH]; intros sum Hsum; simpl.
  - exists sum. auto.
  - destruct (Audit.prize a) as [prize|] eqn:P; [|contradiction].
    apply IH. destruct (parseInt (keep_digits prize)) as [n|] eqn:N; [|lia].
    unfold parseInt in N. destruct (keep_digits prize) as [|c t]; [discriminate|].
    destruct (RegExp.is_digit c); [|discriminate].
    assert (Hn : 0 <= n).
    { injection N as <-.
      exact (digits_value_nonneg (String c t) 0 ltac:(lia)). }
    lia.
Qed.

(** X22: for every store the code reaches with a prize table that is not
    empty, the audit log query returns and does not throw; it lists one
    entry for each winning scan of the history, the last recorded first,
    [total_winners] is the number of winning scans, and the payout total is
    not negative. *)
Theorem audit_log_query (st : Storage) :
  reachable cfg st -> PRIZES cfg <> [] ->
  exists log,
    _demoAuditLog st = Normal log /\
    total_winners log = List.length (filter is_win (SCAN_HISTORY st)) /\
    map (fun v => (AuditView.timestamp v, AuditView.prize v)) (entries log) =
      rev (map (fun e => (Entry.timestamp e, Entry.prize e))
               (filter is_win (SCAN_HISTORY st))) /\
    0 <= totalPayouts log.
Proof.
  intros Hreach Hne.
  destruct (payouts_defined (AUDIT_LOG st) (audit_prizes_inv st Hreach Hne) 0 ltac:(lia))
    as (total & Etotal & Htotal).
  unfold _demoAuditLog. rewrite Etotal. eexists. split; [reflexivity|].
  pose proof (audit_fields_inv st Hreach) as Hinv.
  cbn [total_winners entries totalPayouts]. repeat split.
  - apply (f_equal (@List.length _)) in Hinv.
    now rewrite length_map, length_rev, length_map in Hinv.
  - apply (f_equal (map (fun f : string * string * Timestamp * option string =>
                           (snd (fst f), snd f)))) in Hinv.
    rewrite map_map, map_rev, map_map in Hinv.
    rewrite map_map. exact Hinv.
  - exact Htotal.
Qed.

End LedgerExtras.

(** * More on the leaderboard *)

Section LeaderboardExtras.

Lemma sort_insert_in {A : Type} (cmp : A -> A -> Z) (x z : A) (l : list A) :
  In z (sort_insert cmp x l) -> z = x \/ In z l.
Proof.
  intros Hin. apply (Permutation_in z (sort_insert_perm cmp x l)) in Hin.
  destruct Hin as [<-|Hin]; auto.
Qed.

Lemma sort_insert_descending (x : User.t) (l : list User.t) :
  descending l ->
  descending (sort_insert (fun a b => User.scans b - User.scans a) x l).
Proof.
  unfold descending. induction 1 as [|y l Hl IH Hy]; simpl.
  - repeat constructor.
  - destruct (Z.leb_spec (User.scans y - User.scans x) 0) as [Hle|Hgt].
    + constructor; [now constructor|].
      constructor; [lia|].
      apply Forall_forall. intros z Hz.
      rewrite Forall_forall in Hy. specialize (Hy z Hz). simpl in Hy. lia.
    + constructor; [exact IH|].
      apply Forall_forall. intros z Hz.
      apply sort_insert_in in Hz as [->|Hz]; [lia|].
      rewrite Forall_forall in Hy. exact (Hy z Hz).
Qed.

Lemma Array_sort_descending (l : list User.t) :
  descending (Array_sort (fun a b => User.scans b - User.scans a) l).
Proof.
  unfold Array_sort. induction l as [|x l IH]; simpl.
  - constructor.
  - now apply sort_insert_descending.
Qed.

Lemma in_firstn {A : Type} (n : nat) (l : list A) (z : A) :
  In z (firstn n l) -> In z l.
Proof.
  intros Hz. rewrite <- (firstn_skipn n l). apply in_or_app. now left.
Qed.

Lemma firstn_descending (n : nat) (l : list User.t) :
  descending l -> descending (firstn n l).
Proof.
  unfold descending. intros H. revert n.
  induction H as [|x l Hl IH Hx]; intros [|n]; simpl; try constructor.
  - apply IH.
  - apply Forall_forall. intros z Hz. apply in_firstn in Hz.
    rewrite Forall_forall in Hx. exact (Hx z Hz).
Qed.

Lemma rows_scans (users : list User.t) :
  forall index, map Row.scans (rows index users) = map User.scans users.
Proof.
  induction users as [|u users IH]; intros index; simpl;
    [reflexivity | now rewrite IH].
Qed.

Lemma rows_ranks (users : list User.t) :
  forall index,
    map Row.rank (rows index users) = seq (S index) (List.length users).
Proof.
  induction users as [|u users IH]; intros index; simpl; [reflexivity|].
  rewrite IH. f_equal. lia.
Qed.

Lemma rows_derived (users : list User.t) :
  forall index,
    Forall (fun row => Row.badge row = _getBadge (Row.scans row) /\
                       Row.phone_masked row = _maskPhone (Row.phone row))
           (rows index users).
Proof.
  induction users as [|u users IH]; intros index; simpl; constructor.
  - simpl. auto.
  - apply IH.
Qed.

Lemma descending_scans (users : list User.t) :
  descending users ->
  StronglySorted (fun a b => b <= a) (map User.scans users).
Proof.
  unfold descending. induction 1 as [|x l Hl IH Hx]; simpl; constructor.
  - exact IH.
  - apply Forall_map. exact Hx.
Qed.

Lemma ranking_descending (st : Storage) (phone : string) :
  descending (ranking st phone).
Proof. unfold ranking. apply Array_sort_descending. Qed.

(** X23: whatever the store holds, the leaderboard that comes back has at
    most ten rows, ranked 1, 2, 3, ... without gaps, with scan counts that
    never increase down the list, and each row's badge and masked phone are
    those of its own scan count and phone. *)
Theorem leaderboard_shape (st : Storage) (phone period : string) :
  let board := leaderboard (_demoLeaderboard st phone period) in
  (List.length board <= 10)%nat /\
  map Row.rank board = seq 1 (List.length board) /\
  StronglySorted (fun a b => b <= a) (map Row.scans board) /\
  Forall (fun row => Row.badge row = _getBadge (Row.scans row) /\
                     Row.phone_masked row = _maskPhone (Row.phone row)) board.
Proof.
  intros board. unfold board, _demoLeaderboard. cbn [leaderboard].
  set (top := firstn 10 (ranking st phone)).
  assert (Hlen : List.length (rows 0 top) = List.length top).
  { rewrite <- (length_map Row.scans), rows_scans. apply length_map. }
  repeat split.
  - rewrite Hlen. unfold top. apply firstn_le_length.
  - rewrite rows_ranks, Hlen. reflexivity.
  - rewrite rows_scans. apply descending_scans, firstn_descending,
      ranking_descending.
  - apply rows_derived.
Qed.

Lemma getBadge_monotone (a b : Z) :
  b <= a -> badge_rank (_getBadge b) <= badge_rank (_getBadge a).
Proof.
  intros Hab. unfold _getBadge.
  destruct (Z.leb_spec 50 a), (Z.leb_spec 50 b); simpl; try lia;
    destruct (Z.leb_spec 25 a), (Z.leb_spec 25 b); simpl; try lia;
    destruct (Z.leb_spec 10 a), (Z.leb_spec 10 b); simpl; lia.
Qed.

Lemma sorted_map_monotone (f : Z -> Z) (l : list Z) :
  (forall a b, b <= a -> f b <= f a) ->
  StronglySorted (fun a b => b <= a) l ->
  StronglySorted (fun a b => b <= a) (map f l).
Proof.
  intros Hf. induction 1 as [|x l Hl IH Hx]; simpl; constructor.
  - exact IH.
  - apply Forall_map. eapply Forall_impl; [|exact Hx]. intros a Ha. now apply Hf.
Qed.

(** X24: badges never improve down the returned leaderboard: a row never
    has a better badge than a row ranked above it (gold over silver over
    bronze over none), and a participant with fewer than 10 scans has none. *)
Theorem badges_follow_rank (st : Storage) (phone period : string) :
  let board := leaderboard (_demoLeaderboard st phone period) in
  StronglySorted (fun a b => b <= a)
                 (map (fun row => badge_rank (Row.badge row)) board) /\
  Forall (fun row => Row.scans row < 10 -> Row.badge row = None) board.
Proof.
  intros board. unfold board, _demoLeaderboard. cbn [leaderboard].
  set (top := firstn 10 (ranking st phone)).
  pose proof (rows_derived top 0) as Hd. split.
  - assert (E : map (fun row => badge_rank (Row.badge row)) (rows 0 top) =
                map (fun s => badge_rank (_getBadge s)) (map Row.scans (rows 0 top))).
    { rewrite map_map. apply map_ext_in. intros row Hrow.
      rewrite Forall_forall in Hd. now rewrite (proj1 (Hd row Hrow)). }
    rewrite E. apply sorted_map_monotone; [apply getBadge_monotone|].
    rewrite rows_scans. apply descending_scans, firstn_descending,
      ranking_descending.
  - eapply Forall_impl; [|exact Hd]. intros row [-> _] Hlt.
    unfold _getBadge.
    destruct (Z.leb_spec 50 (Row.scans row)); [lia|].
    destruct (Z.leb_spec 25 (Row.scans row)); [lia|].
    destruct (Z.leb_spec 10 (Row.scans row)); [lia | reflexivity].
Qed.







End LeaderboardExtras.

(** * Phones: masking and registration *)

Section PhoneExtras.

Lemma substring_length (s : string) :
  forall a n, (a + n <= String.length s)%nat ->
              String.length (String.substring a n s) = n.
Proof.
  induction s as [|c s IH]; intros a n H; simpl in H.
  - assert (a = 0 /\ n = 0)%nat as [-> ->] by lia. reflexivity.
  - destruct a as [|a]; simpl.
    + destruct n as [|n]; [reflexivity|]. simpl. rewrite IH by lia. reflexivity.
    + apply IH. lia.
Qed.

Lemma substring_app_l (a b : string) :
  String.substring 0 (String.length a) (a ++ b) = a.
Proof.
  induction a as [|c a IH]; simpl.
  - destruct b; reflexivity.
  - now rewrite IH.
Qed.

Lemma substring_app_r (a b : string) (n : nat) :
  String.substring (String.length a) n (a ++ b) = String.substring 0 n b.
Proof. induction a as [|c a IH]; simpl; [reflexivity | exact IH]. Qed.

Lemma maskPhone_long (phone : string) :
  (7 <= String.length phone)%nat ->
  String.length (_maskPhone phone) = 10%nat /\
  Str.substring 0 3 (_maskPhone phone) = Str.substring 0 3 phone /\
  Str.substring 3 7 (_maskPhone phone) = "****" /\
  Str.substring 7 10 (_maskPhone phone) =
    Str.substring_from (String.length phone - 3) phone.
Proof.
  unfold _maskPhone. intros Hlong.
  destruct (Nat.eqb_spec (String.length phone) 0) as [|_]; [lia|].
  destruct (Nat.ltb_spec (String.length phone) 7) as [|_]; [lia|].
  cbn [orb].
  set (head := Str.substring 0 3 phone).
  set (tail := Str.substring_from (String.length phone - 3) phone).
  assert (Lh : String.length head = 3%nat).
  { unfold head, Str.substring. apply substring_length. lia. }
  assert (Lt : String.length tail = 3%nat).
  { unfold tail, Str.substring_from.
    rewrite substring_length by lia. lia. }
  repeat split.
  - rewrite !string_length_app, Lh, Lt. reflexivity.
  - unfold Str.substring at 1. rewrite <- Lh at 1. cbn [Nat.sub].
    rewrite Nat.sub_0_r. apply substring_app_l.
  - unfold Str.substring at 1. rewrite <- Lh at 1.
    rewrite substring_app_r.
    change (7 - 3)%nat with (String.length "****"). apply substring_app_l.
  - unfold Str.substring at 1.
    transitivity (String.substring (String.length (head ++ "****"))
                                   (String.length tail)
                                   ((head ++ "****") ++ tail)).
    { rewrite string_length_app, Lh, Lt, append_assoc. reflexivity. }
    rewrite substring_app_r. apply substring_all.
Qed.

(** X26: a phone of fewer than 7 characters is returned whole, nothing of
    it hidden.  From 7 characters on the masked form always has 10
    characters, whatever the length of the phone: its first three, four
    stars, its last three. *)
Theorem maskPhone_shape (phone : string) :
  ((String.length phone < 7)%nat -> _maskPhone phone = phone) /\
  ((7 <= String.length phone)%nat ->
   String.length (_maskPhone phone) = 10%nat /\
   Str.substring 0 3 (_maskPhone phone) = Str.substring 0 3 phone /\
   Str.substring 3 7 (_maskPhone phone) = "****" /\
   Str.substring 7 10 (_maskPhone phone) =
     Str.substring_from (String.length phone - 3) phone).
Proof.
  split; [|apply maskPhone_long].
  unfold _maskPhone. intros Hshort. apply Nat.ltb_lt in Hshort.
  rewrite Hshort. now rewrite orb_true_r.
Qed.

(** X27: [register] accepts a phone exactly when it matches the pattern,
    and then the phone has 10 characters and is the registered phone; its
    masked form shows six of the ten and hides four.  A phone that is
    refused changes nothing in the application and writes nothing to
    [localStorage]. *)
Theorem register_outcome (app : App.t) (phone : string) :
  let '(ok, app', effects) := App.register app phone in
  ok = RegExp.test App.phoneRegex phone /\
  (ok = true ->
   String.length phone = 10%nat /\
   App.userPhone app' = Some phone /\ App.isRegistered app' = true /\
   In (App.SetItem "evat_phone" phone) effects /\
   String.length (_maskPhone phone) = 10%nat /\
   Str.substring 3 7 (_maskPhone phone) = "****") /\
  (ok = false ->
   app' = app /\ forall key value, ~ In (App.SetItem key value) effects).
Proof.
  unfold App.register.
  destruct (RegExp.test App.phoneRegex phone) eqn:T; cbn [negb].
  - split; [reflexivity|]. split; [|discriminate]. intros _.
    pose proof (test_length App.phoneRegex 10 phone eq_refl eq_refl T) as L.
    destruct (maskPhone_long phone ltac:(lia)) as (M1 & _ & M3 & _).
    repeat split; auto. now left.
  - split; [reflexivity|]. split; [discriminate|]. intros _.
    split; [reflexivity|]. intros key value [H|[]]. discriminate H.
Qed.

End PhoneExtras.

(** * The additional theorems at concrete inputs *)

Section MoreInstances.


Lemma two_scans_reachable : reachable CONFIG Fixture.two_scans.
Proof.
  unfold Fixture.two_scans. apply reach_scan, reach_scan, reach_empty.
Qed.

Lemma simple_token_shape_witness :
  QRParser.isV1Format Sample.token = true /\
  String.length Sample.token = 27%nat.
Proof.
  split; [reflexivity|].
  exact (proj1 (simple_token_shape Sample.token eq_refl)).
Defined.

Lemma formatTimestamp_pieces_witness :
  QRParser.formatTimestamp (Some ("2024" ++ "05" ++ "01" ++ "10" ++ "00" ++ "00" ++ "Z")) =
    "2024" ++ "/" ++ "05" ++ "/" ++ "01" ++ " " ++ "10" ++ ":" ++ "00" ++ ":" ++ "00" /\
  QRParser.formatTimestamp (Some "20240501") = "Unknown".
Proof.
  pose proof (formatTimestamp_pieces "2024" "05" "01" "10" "00" "00" "Z" "20240501"
                eq_refl eq_refl eq_refl eq_refl eq_refl eq_refl
                ltac:(simpl; lia)) as (H1 & H2 & _).
  split; [exact H1 | exact H2].
Defined.

Lemma generateHash_trade_witness :
  31 * Str.charCode "A" + Str.charCode "Q" = 31 * Str.charCode "B" + Str.charCode "2" /\
  _generateHash ("GRA-VAT-2024-AAAA-AAAA-AA" ++ String "A" (String "Q" "0241234567")) =
  _generateHash ("GRA-VAT-2024-AAAA-AAAA-AA" ++ String "B" (String "2" "0241234567")).
Proof.
  split; [reflexivity|].
  exact (generateHash_trade "GRA-VAT-2024-AAAA-AAAA-AA" "0241234567"
           "A" "Q" "B" "2" eq_refl).
Defined.


Lemma determinePrize_in_table_witness :
  PRIZES CONFIG <> [] /\
  exists label,
    _determinePrize CONFIG (80 # 1) = Some label /\
    In label (map fst (PRIZES CONFIG)).
Proof.
  split; [discriminate|].
  apply (determinePrize_in_table CONFIG (80 # 1)). discriminate.
Defined.

Lemma determinePrize_by_walk_witness :
  (0 <= 80 # 1)%Q /\
  (80 # 1 < inject_Z (fold_right Z.add 0%Z (map snd (PRIZES CONFIG))))%Q /\
  exists i label share,
    nth_error (PRIZES CONFIG) i = Some (label, share) /\
    first_exceeding (PRIZES CONFIG) (80 # 1) i /\
    _determinePrize CONFIG (80 # 1) = Some label.
Proof.
  assert (H0 : (0 <= 80 # 1)%Q) by (unfold Qle; simpl; lia).
  assert (H1 : (80 # 1 < inject_Z (fold_right Z.add 0%Z (map snd (PRIZES CONFIG))))%Q)
    by reflexivity.
  split; [exact H0|]. split; [exact H1|].
  exact (determinePrize_by_walk CONFIG (80 # 1) H0 H1).
Defined.






Lemma scanned_codes_mirror_witness :
  scanned_codes Fixture.two_scans = [Sample.token; Sample.token_Q] /\
  scanned_codes Fixture.two_scans = map Entry.qrCode (SCAN_HISTORY Fixture.two_scans).
Proof.
  split; [reflexivity|].
  exact (scanned_codes_mirror CONFIG Fixture.two_scans two_scans_reachable).
Defined.

Lemma audit_log_is_wins_witness :
  List.length (SCAN_HISTORY Fixture.two_scans) = 2%nat /\
  List.length (AUDIT_LOG Fixture.two_scans) = 1%nat /\
  map audit_fields (AUDIT_LOG Fixture.two_scans) =
  rev (map entry_fields (filter is_win (SCAN_HISTORY Fixture.two_scans))).
Proof.
  split; [reflexivity|]. split; [reflexivity|].
  exact (audit_log_is_wins CONFIG Fixture.two_scans two_scans_reachable).
Defined.

Lemma audit_hash_recomputable_witness :
  AUDIT_LOG Fixture.two_scans <> [] /\
  Forall (fun a => Audit.transactionHash a =
                   commit (Audit.qrCode a) (Audit.phone a)
                          (iso (Audit.timestamp a)) (Audit.randomSeed a))
         (AUDIT_LOG Fixture.two_scans).
Proof.
  split; [discriminate|].
  exact (audit_hash_recomputable CONFIG Fixture.two_scans two_scans_reachable).
Defined.

Lemma leaderboard_agrees_with_history_witness :
  find (has_phone Sample.phone) (LEADERBOARD Fixture.two_scans) =
    Some {| User.phone := Sample.phone; User.scans := 1; User.wins := 1 |} /\
  find (has_phone "0271234567") (LEADERBOARD Fixture.two_scans) = None /\
  NoDup (map User.phone (LEADERBOARD Fixture.two_scans)).
Proof.
  pose proof (leaderboard_agrees_with_history CONFIG Fixture.two_scans
                two_scans_reachable) as [Hnd Hfind].
  split; [exact (Hfind Sample.phone)|].
  split; [exact (Hfind "0271234567") | exact Hnd].
Defined.

Lemma audit_log_query_witness :
  PRIZES CONFIG <> [] /\
  exists log,
    _demoAuditLog Fixture.two_scans = Normal log /\
    total_winners log = 1%nat /\ 0 <= totalPayouts log.
Proof.
  split; [discriminate|].
  destruct (audit_log_query CONFIG Fixture.two_scans two_scans_reachable
              ltac:(discriminate)) as (log & E & Hw & _ & Hp).
  exists log. split; [exact E|]. split; [exact Hw | exact Hp].
Defined.

Lemma success_totals_witness :
  _demoScan CONFIG Sample.env_win Sample.token Sample.phone
            (clock Sample.env_win) empty_storage =
    (Success WIN (Some "GH₵10 Airtime")
             "0000000000000000000000000000000000000000000000000000000071899b27"
             "Congratulations! You won GH₵10 Airtime!" 1 1,
     snd (_demoScan CONFIG Sample.env_win Sample.token Sample.phone
                    (clock Sample.env_win) empty_storage)) /\
  1%nat = S (totalScans (_getUserStats empty_storage Sample.phone)).
Proof.
  assert (Hrun :
    _demoScan CONFIG Sample.env_win Sample.token Sample.phone
              (clock Sample.env_win) empty_storage =
      (Success WIN (Some "GH₵10 Airtime")
               "0000000000000000000000000000000000000000000000000000000071899b27"
               "Congratulations! You won GH₵10 Airtime!" 1 1,
       snd (_demoScan CONFIG Sample.env_win Sample.token Sample.phone
                      (clock Sample.env_win) empty_storage))).
  { vm_compute. reflexivity. }
  split; [exact Hrun|].
  exact (proj1 (success_totals CONFIG _ _ _ _ _ _ _ _ _ _ _ _ Hrun)).
Defined.

Lemma scan_leaves_others_witness :
  "0551234567" <> Sample.phone /\
  _getUserStats
    (snd (submitScan CONFIG Sample.env_win Sample.token Sample.phone Fixture.two_scans))
    "0551234567" =
  _getUserStats Fixture.two_scans "0551234567".
Proof.
  split; [discriminate|].
  exact (proj1 (scan_leaves_others CONFIG Sample.env_win Sample.token Sample.phone
                  "0551234567" 0 Fixture.two_scans ltac:(discriminate))).
Defined.

Lemma maskPhone_shape_witness :
  _maskPhone "02412" = "02412" /\
  String.length (_maskPhone "0241234567890") = 10%nat /\
  Str.substring 7 10 (_maskPhone "0241234567890") = "890".
Proof.
  split; [exact (proj1 (maskPhone_shape "02412") ltac:(simpl; lia))|].
  destruct (proj2 (maskPhone_shape "0241234567890") ltac:(simpl; lia))
    as (H1 & _ & _ & H4).
  split; [exact H1 | exact H4].
Defined.


Lemma register_outcome_witness :
  RegExp.test App.phoneRegex "0241234567" = true /\
  String.length "0241234567" = 10%nat /\
  Str.substring 3 7 (_maskPhone "0241234567") = "****" /\
  RegExp.test App.phoneRegex "0141234567" = false.
Proof.
  pose proof (register_outcome Fixture.app "0241234567") as H.
  cbv in H. destruct H as (_ & Hok & _).
  destruct (Hok eq_refl) as (Hlen & _ & _ & _ & _ & Hstars).
  split; [reflexivity|]. split; [exact Hlen|]. split; [exact Hstars | reflexivity].
Defined.

End MoreInstances.
